(** * Gmail-Agent-V2: sign-in upsert, gates, admin statistics, schema scripts

    A shallow embedding of the parts of the repository that carry
    invariants:

    - [src/server.js]: the GoogleStrategy verify callback (find-or-create
      a user, stamp [last_login]), the [isAdmin] gate, the OAuth callback
      route and the statistics computed by [GET /admin];
    - [create-tables.js], [setup-supabase-tables.js] and the column
      migration script: the DDL batches they send to the store.

    JavaScript values are modelled by the inductive type [value];
    asynchronous code is a resumption ([Eff]) whose [Await] nodes carry
    the request sent to the Supabase client; exceptions are explicit. *)

From stdpp Require Import base strings list pretty gmap.

Set Warnings "-register-all".

Open Scope string_scope.
Open Scope Z_scope.

(** ** JavaScript values *)

Inductive value : Type :=
| VUndefined
| VNull
| VBool (b : bool)
| VNum (n : Z)
| VStr (s : string)
| VArr (elems : list value)
| VObj (props : list (string * value)).

(** A plain object: its own properties in insertion order. *)
Definition object : Type := list (string * value).

Fixpoint assoc (k : string) (o : object) : option value :=
  match o with
  | [] => None
  | (k', v) :: o' => if String.eqb k k' then Some v else assoc k o'
  end.

(** [o[k] = v]: overwrite in place when [k] is an own property, append
    otherwise. *)
Fixpoint assoc_set (k : string) (v : value) (o : object) : object :=
  match o with
  | [] => [(k, v)]
  | (k', v') :: o' =>
      if String.eqb k k' then (k, v) :: o' else (k', v') :: assoc_set k v o'
  end.

Definition keys (o : object) : list string := map fst o.

(** ** Errors, store requests and responses *)

(** The error object of a Supabase response; [code] is the PostgREST or
    Postgres error code. *)
Record PgError : Type := { code : string; message : string }.

Inductive exn : Type :=
| TypeError (msg : string)
| PostgrestError (e : PgError)
| Rejection (reason : value).

(** The [{ data, error }] object a Supabase query resolves to. *)
Record Response : Type := { data : option object; error : option PgError }.

(** The three queries built in [server.js]:
    [from(t).select('*').eq(c, v).single()],
    [from(t).insert(rows).select().single()] and
    [from(t).update(patch).eq(c, v)]. *)
Inductive Request : Type :=
| SelectEqSingle (table column : string) (v : value)
| InsertSelectSingle (table : string) (rows : list object)
| UpdateEq (table : string) (patch : object) (column : string) (v : value).

(** How the awaited promise settles. *)
Inductive Settled : Type :=
| Fulfilled (r : Response)
| Rejected (reason : value).

(** ** Asynchronous computations with exceptions *)

Inductive Eff (A : Type) : Type :=
| Return (a : A)
| Throw (e : exn)
| Await (q : Request) (k : Settled → Eff A).

Arguments Return {A} a.
Arguments Throw {A} e.
Arguments Await {A} q k.

Fixpoint bind {A B : Type} (m : Eff A) (f : A → Eff B) : Eff B :=
  match m with
  | Return a => f a
  | Throw e => Throw e
  | Await q k => Await q (fun s => bind (k s) f)
  end.

#[global] Instance Eff_ret : MRet Eff := @Return.
#[global] Instance Eff_bind : MBind Eff := fun A B f m => bind m f.

(** [await p]: a rejected promise throws its reason at the await. *)
Definition await (q : Request) : Eff Response :=
  Await q (fun s =>
    match s with
    | Fulfilled r => Return r
    | Rejected reason => Throw (Rejection reason)
    end).

(** [try { m } catch (error) { h error }] *)
Fixpoint try_catch {A : Type} (m : Eff A) (h : exn → Eff A) : Eff A :=
  match m with
  | Return a => Return a
  | Throw e => h e
  | Await q k => Await q (fun s => try_catch (k s) h)
  end.

(** ** Property access *)

Definition cannot_read (k : string) : exn :=
  TypeError ("Cannot read properties of undefined or null (reading '" +:+ k +:+ "')").

Definition cannot_set (k : string) : exn :=
  TypeError ("Cannot set properties of null (setting '" +:+ k +:+ "')").

(** [v.k] for a property name [k] that is not an array index and not a
    method of a built-in prototype (the names read by the server are
    [id], [emails], [value], [displayName], [photos], [email],
    [isNewUser]). [None] stands for the TypeError raised on [undefined]
    and [null]. *)
Definition lookup_prop (v : value) (k : string) : option value :=
  match v with
  | VUndefined | VNull => None
  | VObj o => Some (default VUndefined (assoc k o))
  | VArr l => Some (if String.eqb k "length" then VNum (Z.of_nat (length l)) else VUndefined)
  | VStr s => Some (if String.eqb k "length" then VNum (Z.of_nat (String.length s)) else VUndefined)
  | VBool _ | VNum _ => Some VUndefined
  end.

(** [v[i]] for a literal index [i]. *)
Definition lookup_index (v : value) (i : nat) : option value :=
  match v with
  | VUndefined | VNull => None
  | VArr l => Some (default VUndefined (l !! i))
  | VObj o => Some (default VUndefined (assoc (pretty i) o))
  | VStr s =>
      Some (match String.get i s with
            | Some c => VStr (String c EmptyString)
            | None => VUndefined
            end)
  | VBool _ | VNum _ => Some VUndefined
  end.

Definition get_prop (v : value) (k : string) : Eff value :=
  match lookup_prop v k with
  | Some x => Return x
  | None => Throw (cannot_read k)
  end.

Definition get_index (v : value) (i : nat) : Eff value :=
  match lookup_index v i with
  | Some x => Return x
  | None => Throw (cannot_read (pretty i))
  end.

(** Truthiness, as tested by [if], [!] and [&&]. *)
Definition truthy (v : value) : bool :=
  match v with
  | VUndefined | VNull => false
  | VBool b => b
  | VNum n => negb (n =? 0)
  | VStr s => negb (String.eqb s EmptyString)
  | VArr _ | VObj _ => true
  end.

(** [v?.k] *)
Definition get_prop_opt (v : value) (k : string) : Eff value :=
  match v with
  | VUndefined | VNull => Return VUndefined
  | _ => get_prop v k
  end.

(** [user.k = v] where [user] is the [data] of a response. *)
Definition set_field (user : option object) (k : string) (v : value) : Eff object :=
  match user with
  | None => Throw (cannot_set k)
  | Some o => Return (assoc_set k v o)
  end.

(** ** The GoogleStrategy verify callback ([server.js], lines 363-412) *)

(** The call [done(error, user)]. *)
Inductive DoneCall : Type :=
| Done (err : option exn) (user : option object).

Definition select_user (googleId : value) : Request :=
  SelectEqSingle "users" "google_id" googleId.

Definition insert_user (googleId email name picture : value) : Request :=
  InsertSelectSingle "users"
    [[("google_id", googleId); ("email", email); ("name", name); ("picture", picture)]].

Definition update_last_login (now : string) (id : value) : Request :=
  UpdateEq "users" [("last_login", VStr now)] "id" id.

(** The body of the [try] block. [now] is the reading of
    [new Date().toISOString()]. *)
Definition verify_body (profile : value) (now : string) : Eff DoneCall :=
  googleId ← get_prop profile "id";
  emails ← get_prop profile "emails";
  email0 ← get_index emails 0;
  email ← get_prop email0 "value";
  name ← get_prop profile "displayName";
  photos ← get_prop profile "photos";
  photo0 ← get_index photos 0;
  picture ← get_prop_opt photo0 "value";
  r ← await (select_user googleId);
  let user := data r in
  let fetchError := error r in
  _ ← match fetchError with
      | Some e =>
          if negb (String.eqb (code e) "PGRST116")
          then Throw (PostgrestError e)
          else Return ()
      | None => Return ()
      end;
  '(user, isNewUser) ←
    match user with
    | None =>
        r' ← await (insert_user googleId email name picture);
        let newUser := data r' in
        match error r' with
        | Some insertError => Throw (PostgrestError insertError)
        | None => Return (newUser, true)
        end
    | Some u =>
        id ← get_prop (VObj u) "id";
        _ ← await (update_last_login now id);
        Return (Some u, false)
    end;
  user ← set_field user "isNewUser" (VBool isNewUser);
  Return (Done None (Some user)).

Definition verify (profile : value) (now : string) : Eff DoneCall :=
  try_catch (verify_body profile now)
    (fun error => Return (Done (Some error) None)).

(** ** Running a computation against a store *)

Inductive Completion (A : Type) : Type :=
| Returned (a : A)
| Uncaught (e : exn).

Arguments Returned {A} a.
Arguments Uncaught {A} e.

Section Run.
Context {W : Type}.
Variable perform : Request → W → Settled * W.

(** The completion, the final store and the requests sent, oldest
    first. *)
Fixpoint run {A : Type} (m : Eff A) (w : W) : Completion A * W * list Request :=
  match m with
  | Return a => (Returned a, w, [])
  | Throw e => (Uncaught e, w, [])
  | Await q k =>
      let '(s, w') := perform q w in
      let '(c, w'', qs) := run (k s) w' in
      (c, w'', q :: qs)
  end.
End Run.

(** ** The [users] table

    The store is the hosted Postgres instance behind the Supabase client.
    Its model follows the schema of [create-tables.js]:
<<
    id UUID PRIMARY KEY DEFAULT gen_random_uuid(),
    google_id TEXT UNIQUE NOT NULL,
    email TEXT UNIQUE NOT NULL,
    name TEXT, picture TEXT,
    created_at TIMESTAMP DEFAULT NOW(),
    last_login TIMESTAMP,
    is_active BOOLEAN DEFAULT TRUE
>>
    Timestamps are kept as the text the store sends and receives. *)

Module User.
Record t : Type := mk {
  id : string;
  google_id : string;
  email : string;
  name : option string;
  picture : option string;
  created_at : option string;
  last_login : option string;
  is_active : option bool
}.

Definition with_last_login (ts : option string) (u : t) : t :=
  mk (id u) (google_id u) (email u) (name u) (picture u) (created_at u) ts (is_active u).
End User.

Definition text (s : string) : value := VStr s.

Definition nullable {A : Type} (f : A → value) (x : option A) : value :=
  match x with
  | Some a => f a
  | None => VNull
  end.

(** The JSON object the client hands back for a row. *)
Definition to_object (u : User.t) : object :=
  [ ("id", text (User.id u));
    ("google_id", text (User.google_id u));
    ("email", text (User.email u));
    ("name", nullable text (User.name u));
    ("picture", nullable text (User.picture u));
    ("created_at", nullable text (User.created_at u));
    ("last_login", nullable text (User.last_login u));
    ("is_active", nullable VBool (User.is_active u)) ].

Module Store.

(** [clock] is the reading of [NOW()]. *)
Record DB : Type := { users : list User.t; clock : string }.

Definition with_users (us : list User.t) (db : DB) : DB :=
  {| users := us; clock := clock db |}.

Definition pg_error (c m : string) : Response :=
  {| data := None; error := Some {| code := c; message := m |} |}.

(** PostgREST's answer to [.single()] when the result is not exactly
    one row. *)
Definition no_single_row : Response :=
  pg_error "PGRST116" "JSON object requested, multiple (or no) rows returned".

Definition unique_violation : Response :=
  pg_error "23505" "duplicate key value violates unique constraint".

Definition not_null_violation : Response :=
  pg_error "23502" "null value in column violates not-null constraint".

Definition invalid_input : Response :=
  pg_error "22P02" "invalid input syntax".

Definition undefined_table : Response :=
  pg_error "42P01" "relation does not exist".

Definition undefined_column : Response :=
  pg_error "42703" "column does not exist".

Definition single (rows : list User.t) : Response :=
  match rows with
  | [u] => {| data := Some (to_object u); error := None |}
  | _ => no_single_row
  end.

(** The filter [.eq(column, v)]. Only text operands are modelled; any
    other operand matches no row. *)
Definition eq_filter (column : string) (v : value) (u : User.t) : bool :=
  match v, assoc column (to_object u) with
  | VStr s, Some (VStr s') => String.eqb s s'
  | _, _ => false
  end.

(** A TEXT cell of a JSON payload: absent and [undefined] properties
    are dropped by the serializer and so take the column default
    (NULL); anything but text or [null] is outside the modelled
    fragment and refused. *)
Definition text_cell (v : option value) : option (option string) :=
  match v with
  | None | Some VUndefined | Some VNull => Some None
  | Some (VStr s) => Some (Some s)
  | Some _ => None
  end.

Definition bool_cell (v : option value) : option (option bool) :=
  match v with
  | None | Some VUndefined | Some VNull => Some None
  | Some (VBool b) => Some (Some b)
  | Some _ => None
  end.

(** [gen_random_uuid()]: some identifier not yet in the table. The
    model picks it deterministically, longer than every identifier in
    use. *)
Definition max_length (ids : list string) : nat :=
  foldr (fun s n => Nat.max (String.length s) n) 0%nat ids.

Fixpoint zeros (n : nat) : string :=
  match n with
  | O => EmptyString
  | S n' => "0" +:+ zeros n'
  end.

Definition gen_random_uuid (taken : list string) : string :=
  zeros (S (max_length taken)).

Definition known_columns : list string :=
  ["id"; "google_id"; "email"; "name"; "picture"; "created_at"; "last_login"; "is_active"].

Definition has_column (k : string) : bool :=
  existsb (String.eqb k) known_columns.

Definition taken (f : User.t → string) (s : string) (us : list User.t) : bool :=
  existsb (fun u => String.eqb (f u) s) us.

(** [INSERT INTO users (...) VALUES (...)] for one row of the
    payload. The store fills in [id], [created_at] and [is_active]. *)
Definition insert_row (row : object) (db : DB) : Response + User.t :=
  if negb (forallb has_column (keys row)) then inl undefined_column
  else
    match text_cell (assoc "google_id" row), text_cell (assoc "email" row),
          text_cell (assoc "name" row), text_cell (assoc "picture" row) with
    | Some (Some g), Some (Some e), Some n, Some p =>
        if taken User.google_id g (users db) || taken User.email e (users db)
        then inl unique_violation
        else inr (User.mk (gen_random_uuid (User.id <$> users db)) g e n p
                          (Some (clock db)) None (Some true))
    | Some None, _, _, _ | _, Some None, _, _ => inl not_null_violation
    | _, _, _, _ => inl invalid_input
    end.

Fixpoint insert_rows (rows : list object) (db : DB) : Response + (list User.t * DB) :=
  match rows with
  | [] => inr ([], db)
  | row :: rows' =>
      match insert_row row db with
      | inl err => inl err
      | inr u =>
          match insert_rows rows' (with_users (users db ++ [u]) db) with
          | inl err => inl err
          | inr (us, db') => inr (u :: us, db')
          end
      end
  end.

(** [UPDATE users SET k = v] on one row, for the mutable columns. *)
Definition set_column (k : string) (v : value) (u : User.t) : option User.t :=
  if String.eqb k "last_login" then
    ts ← text_cell (Some v);
    Some (User.with_last_login ts u)
  else if String.eqb k "name" then
    n ← text_cell (Some v);
    Some (User.mk (User.id u) (User.google_id u) (User.email u) n (User.picture u)
                  (User.created_at u) (User.last_login u) (User.is_active u))
  else if String.eqb k "picture" then
    p ← text_cell (Some v);
    Some (User.mk (User.id u) (User.google_id u) (User.email u) (User.name u) p
                  (User.created_at u) (User.last_login u) (User.is_active u))
  else if String.eqb k "is_active" then
    b ← bool_cell (Some v);
    Some (User.mk (User.id u) (User.google_id u) (User.email u) (User.name u)
                  (User.picture u) (User.created_at u) (User.last_login u) b)
  else None.

Fixpoint apply_patch (patch : object) (u : User.t) : option User.t :=
  match patch with
  | [] => Some u
  | (k, v) :: patch' => u' ← set_column k v u; apply_patch patch' u'
  end.

Fixpoint update_where (column : string) (v : value) (patch : object)
    (us : list User.t) : option (list User.t) :=
  match us with
  | [] => Some []
  | u :: us' =>
      u' ← (if eq_filter column v u then apply_patch patch u else Some u);
      rest ← update_where column v patch us';
      Some (u' :: rest)
  end.

Definition perform (q : Request) (db : DB) : Settled * DB :=
  match q with
  | SelectEqSingle table column v =>
      if negb (String.eqb table "users") then (Fulfilled undefined_table, db)
      else (Fulfilled (single (filter (fun u => eq_filter column v u = true) (users db))), db)
  | InsertSelectSingle table rows =>
      if negb (String.eqb table "users") then (Fulfilled undefined_table, db)
      else
        match insert_rows rows db with
        | inl err => (Fulfilled err, db)
        | inr (inserted, db') => (Fulfilled (single inserted), db')
        end
  | UpdateEq table patch column v =>
      if negb (String.eqb table "users") then (Fulfilled undefined_table, db)
      else
        match update_where column v patch (users db) with
        | None => (Fulfilled invalid_input, db)
        | Some us => (Fulfilled {| data := None; error := None |}, with_users us db)
        end
  end.

(** The constraints of the schema: primary key and the two UNIQUE
    columns. *)
Record wf (db : DB) : Prop := {
  wf_id : NoDup (User.id <$> users db);
  wf_google_id : NoDup (User.google_id <$> users db);
  wf_email : NoDup (User.email <$> users db)
}.

End Store.

(** ** Passport

    [passport-oauth2] hands the verify callback a continuation
    [verified(err, user, info)]:
<<
    if (err) { return self.error(err); }
    if (!user) { return self.fail(info); }
    self.success(user, info);
>>
    and [passport.authenticate] turns the three strategy actions into
    [req.logIn(user)] followed by the next handler, the failure redirect,
    and [next(err)]. *)

Inductive AuthResult : Type :=
| Success (user : object)
| Fail
| Error (err : exn).

(** Truthiness of a thrown value: error objects are truthy, the reason of
    a rejected promise is any value. *)
Definition thrown_truthy (e : exn) : bool :=
  match e with
  | TypeError _ | PostgrestError _ => true
  | Rejection reason => truthy reason
  end.

Definition verified (d : DoneCall) : AuthResult :=
  let 'Done err user := d in
  let check_user :=
    match user with
    | Some u => Success u
    | None => Fail
    end in
  match err with
  | Some e => if thrown_truthy e then Error e else check_user
  | None => check_user
  end.

(** One run of the strategy against a store: the outcome passport sees,
    the store afterwards and the requests sent. An exception escaping
    the callback would reject its promise; nothing handles it. *)
Inductive Attempt : Type :=
| Settles (result : AuthResult)
| Crashes (e : exn).

Definition sign_in {W : Type} (perform : Request → W → Settled * W)
    (profile : value) (now : string) (w : W) : Attempt * W * list Request :=
  let '(c, w', qs) := run perform (verify profile now) w in
  (match c with
   | Returned d => Settles (verified d)
   | Uncaught e => Crashes e
   end, w', qs).

(** The principal attached to the session, if any. *)
Definition principal (a : Attempt) : option object :=
  match a with
  | Settles (Success u) => Some u
  | _ => None
  end.

(** ** HTTP handlers ([server.js]) *)

Inductive HttpResponse : Type :=
| Redirect (location : string)
| Send (status : Z) (body : string)
| Json (status : Z) (body : object).

(** What a middleware does with a request: answer it, call [next()], or
    pass an error on ([next(err)] or a thrown exception). *)
Inductive Handled : Type :=
| Respond (r : HttpResponse)
| Next
| NextError (e : exn).

(** The part of the request the handlers read: [req.user]. *)
Record Req : Type := { user : value }.

(** [req.isAuthenticated()]: whether [req.user] is set. *)
Definition req_isAuthenticated (req : Req) : bool := truthy (user req).

Definition isAuthenticated (req : Req) : Handled :=
  if req_isAuthenticated req then Next else Respond (Redirect "/").

(** [process.env.ADMIN_EMAIL || 'your-email@gmail.com'] *)
Definition ADMIN_EMAIL (env : option string) : string :=
  match env with
  | Some s => if String.eqb s EmptyString then "your-email@gmail.com" else s
  | None => "your-email@gmail.com"
  end.

(** [v === s] for a string [s]. *)
Definition strict_eq_string (v : value) (s : string) : bool :=
  match v with
  | VStr s' => String.eqb s' s
  | _ => false
  end.

Definition access_denied : HttpResponse := Send 403 "Access denied. Admin only.".

Definition isAdmin (env : option string) (req : Req) : Handled :=
  if req_isAuthenticated req then
    match lookup_prop (user req) "email" with
    | Some email =>
        if strict_eq_string email (ADMIN_EMAIL env) then Next
        else Respond access_denied
    | None => NextError (cannot_read "email")
    end
  else Respond access_denied.

Definition passport_authenticate (failureRedirect : string) (result : AuthResult)
    (next : Req → Handled) : Handled :=
  match result with
  | Success u => next {| user := VObj u |}
  | Fail => Respond (Redirect failureRedirect)
  | Error e => NextError e
  end.

(** [GET /auth/google/callback], lines 509-518. *)
Definition auth_google_callback (result : AuthResult) : Handled :=
  passport_authenticate "/" result (fun req =>
    match lookup_prop (user req) "isNewUser" with
    | Some isNewUser =>
        if truthy isNewUser then Respond (Redirect "/dashboard?welcome=true")
        else Respond (Redirect "/dashboard")
    | None => NextError (cannot_read "isNewUser")
    end).

(** The error-handling middleware at the end of the chain. *)
Definition error_handler (e : exn) : HttpResponse :=
  Json 500 [("error", VStr "Internal server error")].

Definition respond (h : Handled) (otherwise : HttpResponse) : HttpResponse :=
  match h with
  | Respond r => r
  | Next => otherwise
  | NextError e => error_handler e
  end.

(** ** Admin statistics ([GET /admin], lines 760-771) *)

Record Stats : Type := {
  totalUsers : nat;
  activeUsers : nat;
  newToday : nat;
  newThisWeek : nat
}.

Definition ms_per_hour : Z := 3600000.
Definition ms_per_day : Z := 86400000.

Section AdminStats.
(** [Date_parse s] is the time value of [new Date(s)] in milliseconds
    since the epoch, [None] for an invalid date. [tz] is the offset of
    local time from UTC in milliseconds, taken as constant over the
    days involved. *)
Variable Date_parse : string → option Z.
Variable tz : Z.

(** [new Date(now.getFullYear(), now.getMonth(), now.getDate())]: the
    local midnight that starts [now]'s calendar day. *)
Definition today (now : Z) : Z :=
  let local := now + tz in
  local - local `mod` ms_per_day - tz.

(** [weekAgo.setDate(weekAgo.getDate() - 7)] *)
Definition weekAgo (now : Z) : Z := today now - 7 * ms_per_day.

(** [new Date(u.created_at)]; a [null] column reads as the epoch. *)
Definition created (u : User.t) : option Z :=
  match User.created_at u with
  | Some s => Date_parse s
  | None => Some 0
  end.

(** [d >= t] on dates; an invalid date compares false. *)
Definition date_ge (d : option Z) (t : Z) : bool :=
  match d with
  | Some x => t <=? x
  | None => false
  end.

Definition active (u : User.t) : bool :=
  match User.is_active u with
  | Some b => b
  | None => false
  end.

Definition stats (users : list User.t) (now : Z) : Stats :=
  {| totalUsers := length users;
     activeUsers := length (List.filter active users);
     newToday := length (List.filter (fun u => date_ge (created u) (today now)) users);
     newThisWeek := length (List.filter (fun u => date_ge (created u) (weekAgo now)) users) |}.

(** The statistics in the words of the specification: counts of the
    records that satisfy a condition. *)
Fixpoint count_if {A : Type} (p : A → bool) (l : list A) : nat :=
  match l with
  | [] => 0%nat
  | x :: l' => if p x then S (count_if p l') else count_if p l'
  end.

(** [m] is the local midnight of the day [now] falls in. *)
Definition local_midnight_of (now m : Z) : Prop :=
  (m + tz) `mod` ms_per_day = 0 ∧ m ≤ now < m + ms_per_day.

Definition created_on_or_after (t : Z) (u : User.t) : bool :=
  match created u with
  | Some c => bool_decide (t ≤ c)
  | None => false
  end.
End AdminStats.

(** A reader for timestamps of the form [YYYY-MM-DDTHH:MM:SS], which
    [Date] takes as local time when no offset follows; used to run the
    statistics on concrete tables. *)
Definition digit (c : Ascii.ascii) : option Z :=
  let n := Z.of_nat (Ascii.nat_of_ascii c) - 48 in
  if (0 <=? n) && (n <=? 9) then Some n else None.

Fixpoint number (n : nat) (acc : Z) (s : string) : option (Z * string) :=
  match n, s with
  | O, _ => Some (acc, s)
  | S n', String c s' => d ← digit c; number n' (10 * acc + d) s'
  | S _, EmptyString => None
  end.

Definition expect (c : string) (s : string) : option string :=
  match s with
  | String x s' => if String.eqb (String x EmptyString) c then Some s' else None
  | EmptyString => None
  end.

(** Days from 1970-01-01 to the given Gregorian date. *)
Definition days_from_civil (y m d : Z) : Z :=
  let y' := if m <=? 2 then y - 1 else y in
  let era := y' `div` 400 in
  let yoe := y' - era * 400 in
  let doy := (153 * (if 2 <? m then m - 3 else m + 9) + 2) `div` 5 + d - 1 in
  let doe := yoe * 365 + yoe `div` 4 - yoe `div` 100 + doy in
  era * 146097 + doe - 719468.

Definition iso_local (tz : Z) (s : string) : option Z :=
  '(y, s) ← number 4 0 s;
  s ← expect "-" s;
  '(mo, s) ← number 2 0 s;
  s ← expect "-" s;
  '(d, s) ← number 2 0 s;
  s ← expect "T" s;
  '(hh, s) ← number 2 0 s;
  s ← expect ":" s;
  '(mi, s) ← number 2 0 s;
  s ← expect ":" s;
  '(ss, _) ← number 2 0 s;
  Some (days_from_civil y mo d * ms_per_day + hh * ms_per_hour + mi * 60000 + ss * 1000 - tz).

(** ** Schema scripts

    The DDL text the operator scripts send to [exec_sql] (or print for
    the SQL editor), as statements, and what Postgres does with them on
    a schema. A table owns its indexes, so dropping it drops them.
    Foreign keys are checked when the referencing table is created; the
    constraint objects are not tracked afterwards, so CASCADE removes
    nothing beyond the table and its indexes. *)

Module Ddl.

Record Column : Type := {
  name : string;
  type : string;
  constraints : string;
  references : option (string * string)
}.

(** [rows] counts the records held; [indexes] maps an index name to
    the column it covers. *)
Record Table : Type := {
  columns : list Column;
  rows : nat;
  indexes : gmap string string
}.

Inductive Stmt : Type :=
| DropTable (if_exists : bool) (table : string) (cascade : bool)
| CreateTable (if_not_exists : bool) (table : string) (cols : list Column)
| CreateIndex (if_not_exists : bool) (index table column : string)
| AlterTableAdd (table : string) (cols : list (bool * Column)).

Inductive Error : Type :=
| UndefinedTable (n : string)
| DuplicateRelation (n : string)
| UndefinedColumn (n : string)
| DuplicateColumn (n : string)
| InvalidForeignKey (n : string).

Inductive Result : Type :=
| Ok (s : gmap string Table)
| Failed (e : Error).

Definition has_column (c : string) (cols : list Column) : bool :=
  existsb (fun col => String.eqb (name col) c) cols.

Definition index_taken (i : string) (s : gmap string Table) : bool :=
  bool_decide (map_Exists (fun _ t => is_Some (indexes t !! i)) s).

(** Tables and indexes share one namespace. *)
Definition name_taken (n : string) (s : gmap string Table) : bool :=
  bool_decide (is_Some (s !! n)) || index_taken n s.

Fixpoint distinct (names : list string) : bool :=
  match names with
  | [] => true
  | n :: names' => negb (existsb (String.eqb n) names') && distinct names'
  end.

(** A REFERENCES clause needs its target table and column. *)
Definition fk_ok (self : string) (cols : list Column) (s : gmap string Table)
    (c : Column) : bool :=
  match references c with
  | None => true
  | Some (t, k) =>
      if String.eqb t self then has_column k cols
      else
        match s !! t with
        | Some tb => has_column k (columns tb)
        | None => false
        end
  end.

Definition first_bad_fk (self : string) (cols : list Column) (s : gmap string Table)
    (new : list Column) : option string :=
  name <$> List.find (fun c => negb (fk_ok self cols s c)) new.

(** The actions of one ALTER TABLE, left to right. *)
Fixpoint add_columns (table : string) (s : gmap string Table)
    (cols : list (bool * Column)) (tb : Table) : Error + Table :=
  match cols with
  | [] => inr tb
  | (if_not_exists, c) :: cols' =>
      if has_column (name c) (columns tb) then
        if if_not_exists then add_columns table s cols' tb
        else inl (DuplicateColumn (name c))
      else if negb (fk_ok table (columns tb ++ [c]) s c) then
        inl (InvalidForeignKey (name c))
      else
        add_columns table s cols'
          {| columns := columns tb ++ [c]; rows := rows tb; indexes := indexes tb |}
  end.

Definition exec_stmt (st : Stmt) (s : gmap string Table) : Result :=
  match st with
  | DropTable if_exists t cascade =>
      match s !! t with
      | Some _ => Ok (delete t s)
      | None => if if_exists then Ok s else Failed (UndefinedTable t)
      end
  | CreateTable if_not_exists t cols =>
      if name_taken t s then
        if if_not_exists then Ok s else Failed (DuplicateRelation t)
      else if negb (distinct (name <$> cols)) then Failed (DuplicateColumn t)
      else
        match first_bad_fk t cols s cols with
        | Some c => Failed (InvalidForeignKey c)
        | None => Ok (<[t := {| columns := cols; rows := 0; indexes := ∅ |}]> s)
        end
  | CreateIndex if_not_exists i t c =>
      if name_taken i s then
        if if_not_exists then Ok s else Failed (DuplicateRelation i)
      else
        match s !! t with
        | None => Failed (UndefinedTable t)
        | Some tb =>
            if has_column c (columns tb) then
              Ok (<[t := {| columns := columns tb; rows := rows tb;
                            indexes := <[i := c]> (indexes tb) |}]> s)
            else Failed (UndefinedColumn c)
        end
  | AlterTableAdd t cols =>
      match s !! t with
      | None => Failed (UndefinedTable t)
      | Some tb =>
          match add_columns t s cols tb with
          | inl e => Failed e
          | inr tb' => Ok (<[t := tb']> s)
          end
      end
  end.

(** A batch runs as one transaction: the first error aborts it. *)
Fixpoint exec_batch (batch : list Stmt) (s : gmap string Table) : Result :=
  match batch with
  | [] => Ok s
  | st :: batch' =>
      match exec_stmt st s with
      | Ok s' => exec_batch batch' s'
      | Failed e => Failed e
      end
  end.

(** What a script leaves behind: the new schema, or the old one when
    the batch was refused. *)
Definition run_script (batch : list Stmt) (s : gmap string Table) : gmap string Table :=
  match exec_batch batch s with
  | Ok s' => s'
  | Failed _ => s
  end.

(** Whether a statement carries an IF EXISTS / IF NOT EXISTS guard. *)
Definition guarded (st : Stmt) : bool :=
  match st with
  | DropTable if_exists _ _ => if_exists
  | CreateTable if_not_exists _ _ => if_not_exists
  | CreateIndex if_not_exists _ _ _ => if_not_exists
  | AlterTableAdd _ cols => forallb fst cols
  end.

Definition guarded_create (st : Stmt) : Prop :=
  ∃ t cols, st = CreateTable true t cols.

(** The table a statement writes to. *)
Definition target (st : Stmt) : string :=
  match st with
  | DropTable _ t _ | CreateTable _ t _ | CreateIndex _ _ t _ | AlterTableAdd t _ => t
  end.

Definition col (n ty cs : string) : Column :=
  {| name := n; type := ty; constraints := cs; references := None |}.

Definition fk (n ty t k cs : string) : Column :=
  {| name := n; type := ty; constraints := cs; references := Some (t, k) |}.

Definition users_columns : list Column :=
  [ col "id" "UUID" "PRIMARY KEY DEFAULT gen_random_uuid()";
    col "google_id" "TEXT" "UNIQUE NOT NULL";
    col "email" "TEXT" "UNIQUE NOT NULL";
    col "name" "TEXT" EmptyString;
    col "picture" "TEXT" EmptyString;
    col "created_at" "TIMESTAMP" "DEFAULT NOW()";
    col "last_login" "TIMESTAMP" EmptyString;
    col "is_active" "BOOLEAN" "DEFAULT TRUE" ].

Definition sessions_columns : list Column :=
  [ col "id" "UUID" "PRIMARY KEY DEFAULT gen_random_uuid()";
    fk "user_id" "UUID" "users" "id" "ON DELETE CASCADE";
    col "token" "TEXT" "UNIQUE";
    col "expires_at" "TIMESTAMP" "NOT NULL";
    col "created_at" "TIMESTAMP" "DEFAULT NOW()" ].

(** [create-tables.js], [createTables] *)
Definition createTables : list Stmt :=
  [ CreateTable true "users" users_columns;
    CreateTable true "sessions" sessions_columns ].

(** [setup-supabase-tables.js], [setupTables] *)
Definition setupTables : list Stmt :=
  [ DropTable true "sessions" true;
    DropTable true "users" true;
    CreateTable false "users" users_columns;
    CreateTable false "sessions" sessions_columns;
    CreateIndex false "idx_users_google_id" "users" "google_id";
    CreateIndex false "idx_users_email" "users" "email";
    CreateIndex false "idx_sessions_user_id" "sessions" "user_id" ].

(** The column migration, [addOAuthTokenColumns] *)
Definition addOAuthTokenColumns : list Stmt :=
  [ AlterTableAdd "users"
      [ (true, col "access_token" "TEXT" EmptyString);
        (true, col "refresh_token" "TEXT" EmptyString);
        (true, col "token_expiry" "TIMESTAMP" EmptyString);
        (true, col "gmail_watch_enabled" "BOOLEAN" "DEFAULT FALSE");
        (true, col "gmail_watch_expiration" "BIGINT" EmptyString);
        (true, col "gmail_history_id" "TEXT" EmptyString) ] ].

Definition scripts : list (list Stmt) :=
  [createTables; setupTables; addOAuthTokenColumns].

(** Records arriving in a table between two runs. *)
Definition with_rows (t : string) (n : nat) (s : gmap string Table) : gmap string Table :=
  alter (fun tb => {| columns := columns tb; rows := n; indexes := indexes tb |}) t s.

End Ddl.

(** ** Identity assertions and scripted stores *)

(** The verified identity the provider asserts: subject id, email,
    display name and, when the account has a photo, avatar URL. *)
Module Assertion.
Record t : Type := mk {
  subject_id : string;
  email : string;
  display_name : string;
  avatar_url : option string
}.
End Assertion.

(** The profile object [passport-google-oauth20] builds for an
    assertion. *)
Definition profile_of (a : Assertion.t) : value :=
  VObj
    [ ("id", VStr (Assertion.subject_id a));
      ("displayName", VStr (Assertion.display_name a));
      ("emails", VArr [VObj [("value", VStr (Assertion.email a)); ("verified", VBool true)]]);
      ("photos", VArr match Assertion.avatar_url a with
                      | Some url => [VObj [("value", VStr url)]]
                      | None => []
                      end) ].

(** A store that answers from a script, whatever is asked; once the
    script is exhausted the connection is gone. *)
Definition scripted (q : Request) (script : list Settled) : Settled * list Settled :=
  match script with
  | s :: script' => (s, script')
  | [] => (Rejected VUndefined, [])
  end.

(** The columns a request writes. *)
Definition written_columns (q : Request) : list string :=
  match q with
  | SelectEqSingle _ _ _ => []
  | InsertSelectSingle _ rows => concat (keys <$> rows)
  | UpdateEq _ patch _ _ => keys patch
  end.

Definition is_insert (q : Request) : bool :=
  match q with
  | InsertSelectSingle _ _ => true
  | _ => false
  end.

(** The [try] block cut at its awaits: the reads that open it, and what
    follows each answer of the store. These are the forms the proofs
    work with; [verify_body_read] and [run_after_select] relate them to
    [verify_body]. *)
Definition read_profile (profile : value) : Eff (value * value * value * value) :=
  googleId ← get_prop profile "id";
  emails ← get_prop profile "emails";
  email0 ← get_index emails 0;
  email ← get_prop email0 "value";
  name ← get_prop profile "displayName";
  photos ← get_prop profile "photos";
  photo0 ← get_index photos 0;
  picture ← get_prop_opt photo0 "value";
  Return (googleId, email, name, picture).

Definition after_insert (s : Settled) : Eff DoneCall :=
  match s with
  | Rejected reason => Throw (Rejection reason)
  | Fulfilled r' =>
      match error r' with
      | Some insertError => Throw (PostgrestError insertError)
      | None =>
          match data r' with
          | Some newUser => Return (Done None (Some (assoc_set "isNewUser" (VBool true) newUser)))
          | None => Throw (cannot_set "isNewUser")
          end
      end
  end.

Definition after_update (u : object) (s : Settled) : Eff DoneCall :=
  match s with
  | Rejected reason => Throw (Rejection reason)
  | Fulfilled _ => Return (Done None (Some (assoc_set "isNewUser" (VBool false) u)))
  end.

Definition after_select (googleId email name picture : value) (now : string)
    (s : Settled) : Eff DoneCall :=
  match s with
  | Rejected reason => Throw (Rejection reason)
  | Fulfilled r =>
      match error r with
      | Some e =>
          if String.eqb (code e) "PGRST116" then
            match data r with
            | None => Await (insert_user googleId email name picture) after_insert
            | Some u =>
                Await (update_last_login now (default VUndefined (assoc "id" u))) (after_update u)
            end
          else Throw (PostgrestError e)
      | None =>
          match data r with
          | None => Await (insert_user googleId email name picture) after_insert
          | Some u =>
              Await (update_last_login now (default VUndefined (assoc "id" u))) (after_update u)
          end
      end
  end.

(** The ways through the callback: what [done] is called with and the
    requests sent on the way. *)
Inductive path (now : string) : DoneCall → list Request → Prop :=
| path_bad_profile (msg : string) :
    path now (Done (Some (TypeError msg)) None) []
| path_query_failed (g : value) (err : exn) :
    path now (Done (Some err) None) [select_user g]
| path_insert_failed (g e n p : value) (err : exn) :
    path now (Done (Some err) None) [select_user g; insert_user g e n p]
| path_created (g e n p : value) (newUser : object) :
    path now (Done None (Some (assoc_set "isNewUser" (VBool true) newUser)))
      [select_user g; insert_user g e n p]
| path_update_rejected (g : value) (u : object) (reason : value) :
    path now (Done (Some (Rejection reason)) None)
      [select_user g; update_last_login now (default VUndefined (assoc "id" u))]
| path_returning (g : value) (u : object) :
    path now (Done None (Some (assoc_set "isNewUser" (VBool false) u)))
      [select_user g; update_last_login now (default VUndefined (assoc "id" u))].

(** ** What the sign-in is to achieve on the store *)

Definition is_update (q : Request) : bool :=
  match q with
  | UpdateEq _ _ _ _ => true
  | _ => false
  end.

(** The record the store builds for a first sign-in. *)
Definition new_user (a : Assertion.t) (db : Store.DB) : User.t :=
  User.mk (Store.gen_random_uuid (User.id <$> Store.users db))
    (Assertion.subject_id a) (Assertion.email a) (Some (Assertion.display_name a))
    (Assertion.avatar_url a) (Some (Store.clock db)) None (Some true).

(** A first sign-in: one record more, carrying the assertion, and the
    caller is told the user is new. *)
Definition creates_user (db : Store.DB) (a : Assertion.t) (now : string) : Prop :=
  let '(attempt, db', _) := sign_in Store.perform (profile_of a) now db in
  ∃ u session,
    Store.users db' = (Store.users db ++ [u])%list ∧
    User.google_id u = Assertion.subject_id a ∧
    User.email u = Assertion.email a ∧
    User.name u = Some (Assertion.display_name a) ∧
    User.picture u = Assertion.avatar_url a ∧
    attempt = Settles (Success session) ∧
    assoc "isNewUser" session = Some (VBool true).

Definition only_last_login_differs (u u' : User.t) : Prop :=
  User.id u' = User.id u ∧
  User.google_id u' = User.google_id u ∧
  User.email u' = User.email u ∧
  User.name u' = User.name u ∧
  User.picture u' = User.picture u ∧
  User.created_at u' = User.created_at u ∧
  User.is_active u' = User.is_active u.

(** A repeat sign-in of the user held in record [u]: no insert, one
    update whose patch is [last_login] alone, the table unchanged but
    for that field of that record, and the caller is told the user is
    not new. *)
Definition stamps_last_login (db : Store.DB) (a : Assertion.t) (now : string)
    (u : User.t) : Prop :=
  let '(attempt, db', qs) := sign_in Store.perform (profile_of a) now db in
  ∃ before after u' session,
    Store.users db = (before ++ u :: after)%list ∧
    Store.users db' = (before ++ u' :: after)%list ∧
    only_last_login_differs u u' ∧
    User.last_login u' = Some now ∧
    List.filter is_insert qs = [] ∧
    List.filter is_update qs = [UpdateEq "users" [("last_login", VStr now)] "id" (VStr (User.id u))] ∧
    attempt = Settles (Success session) ∧
    assoc "isNewUser" session = Some (VBool false).

(** Sample data. *)
Definition alice : User.t :=
  User.mk "0" "g-0" "a@x.com" (Some "Alice") None (Some "2024-01-01T09:00:00")
    None (Some true).

Definition alice_db : Store.DB :=
  {| Store.users := [alice]; Store.clock := "2024-01-02T09:00:00" |}.

Definition alice_again : Assertion.t :=
  Assertion.mk "g-0" "a@x.com" "Alice" None.

Definition same_email : Assertion.t :=
  Assertion.mk "g-1" "a@x.com" "A. Liddell" None.

Definition bob : Assertion.t :=
  Assertion.mk "g-1" "b@x.com" "Bob" (Some "https://lh3.example/bob.png").

Definition statement_timeout : PgError :=
  {| code := "57014"; message := "canceling statement due to statement timeout" |}.

(** The sample of the specification: three users created one hour, two
    days and ten days before [T], listed newest first as the admin query
    orders them, and the counts expected for them. *)
Definition sample_users (Date_parse : string → option Z) (T : Z)
    (u1 u2 u3 : User.t) : Prop :=
  created Date_parse u1 = Some (T - ms_per_hour) ∧
  created Date_parse u2 = Some (T - 2 * ms_per_day) ∧
  created Date_parse u3 = Some (T - 10 * ms_per_day).

Definition sample_counts (Date_parse : string → option Z) (tz T : Z)
    (u1 u2 u3 : User.t) : Prop :=
  let s := stats Date_parse tz [u1; u2; u3] T in
  newToday s = 1%nat ∧ newThisWeek s = 2%nat ∧ totalUsers s = 3%nat.

Definition joined (i : string) (ts : string) : User.t :=
  User.mk i ("g-" +:+ i) (i +:+ "@x.com") None None (Some ts) None (Some true).

(** ** The store behind a link that may fail

    [faults] tells, request by request, whether the request is lost
    before it reaches the store, and how the client reports it: as an
    error answer or as a rejected promise. *)

Inductive Fault : Type :=
| ErrorAnswer (e : PgError)
| Reject (reason : value).

Definition over_link (q : Request) (w : Store.DB * list (option Fault)) :
    Settled * (Store.DB * list (option Fault)) :=
  let '(db, faults) := w in
  match faults with
  | Some (ErrorAnswer e) :: faults' =>
      (Fulfilled {| data := None; error := Some e |}, (db, faults'))
  | Some (Reject reason) :: faults' => (Rejected reason, (db, faults'))
  | None :: faults' =>
      let '(s, db') := Store.perform q db in (s, (db', faults'))
  | [] =>
      let '(s, db') := Store.perform q db in (s, (db', []))
  end.

Definition fetch_failed : PgError :=
  {| code := EmptyString; message := "TypeError: fetch failed" |}.


(** ** The callback route as the specification words it

    The answer the specification gives for [GET /auth/google/callback],
    following its words: on success a redirect to [/dashboard], with
    the query marker if the user is newly registered, on failure a
    redirect to [/]. A sign-in succeeded when it established a
    principal. *)
Definition specified_redirect (a : Attempt) (newly_registered : bool) : HttpResponse :=
  match principal a with
  | Some _ => Redirect (if newly_registered then "/dashboard?welcome=true" else "/dashboard")
  | None => Redirect "/"
  end.

(** The body of the answer of the error-handling middleware. *)
Definition internal_server_error : HttpResponse :=
  Json 500 [("error", VStr "Internal server error")].

(** ** The first revision of the callback ([server.js], lines 63-108)

    The same find-or-create without the [isNewUser] flag; it is also the
    callback [automated_setup.js] writes into the generated server. *)

Definition verify_body_v1 (profile : value) (now : string) : Eff DoneCall :=
  googleId ← get_prop profile "id";
  emails ← get_prop profile "emails";
  email0 ← get_index emails 0;
  email ← get_prop email0 "value";
  name ← get_prop profile "displayName";
  photos ← get_prop profile "photos";
  photo0 ← get_index photos 0;
  picture ← get_prop_opt photo0 "value";
  r ← await (select_user googleId);
  let user := data r in
  let fetchError := error r in
  _ ← match fetchError with
      | Some e =>
          if negb (String.eqb (code e) "PGRST116")
          then Throw (PostgrestError e)
          else Return ()
      | None => Return ()
      end;
  user ←
    match user with
    | None =>
        r' ← await (insert_user googleId email name picture);
        let newUser := data r' in
        match error r' with
        | Some insertError => Throw (PostgrestError insertError)
        | None => Return newUser
        end
    | Some u =>
        id ← get_prop (VObj u) "id";
        _ ← await (update_last_login now id);
        Return (Some u)
    end;
  Return (Done None user).

Definition verify_v1 (profile : value) (now : string) : Eff DoneCall :=
  try_catch (verify_body_v1 profile now)
    (fun error => Return (Done (Some error) None)).

(** The first revision from its first await on, as the proofs use it. *)
Definition upsert_v1 (g e n p : value) (now : string) : Eff DoneCall :=
  r ← await (select_user g);
  let user := data r in
  let fetchError := error r in
  _ ← match fetchError with
      | Some e =>
          if negb (String.eqb (code e) "PGRST116")
          then Throw (PostgrestError e)
          else Return ()
      | None => Return ()
      end;
  user ←
    match user with
    | None =>
        r' ← await (insert_user g e n p);
        let newUser := data r' in
        match error r' with
        | Some insertError => Throw (PostgrestError insertError)
        | None => Return newUser
        end
    | Some u =>
        id ← get_prop (VObj u) "id";
        _ ← await (update_last_login now id);
        Return (Some u)
    end;
  Return (Done None user).

(** How the later revision's [done] call follows from the first
    revision's, given the requests sent. *)
Definition flagged (qs : list Request) (d : DoneCall) : DoneCall :=
  match d with
  | Done None (Some u) =>
      Done None (Some (assoc_set "isNewUser" (VBool (existsb is_insert qs)) u))
  | Done None None => Done (Some (cannot_set "isNewUser")) None
  | Done (Some e) u => Done (Some e) u
  end.

(** ** The sign-in page route and the dashboard gate ([server.js]) *)

(** [GET /], lines 432-503. The page is a template literal without
    interpolations; its markup is a parameter. *)
Definition root_route (signin_page : string) (req : Req) : Handled :=
  if req_isAuthenticated req then Respond (Redirect "/dashboard")
  else Respond (Send 200 signin_page).

(** ** The New badge of the admin table ([generateAdminDashboard])

    [const isNew = (new Date() - new Date(user.created_at)) < 86400000];
    [now'] is the reading of [new Date()] while the page is rendered. A
    difference with an invalid date is NaN and compares false. *)
Definition isNew (Date_parse : string → option Z) (now' : Z) (u : User.t) : bool :=
  match created Date_parse u with
  | Some c => now' - c <? 86400000
  | None => false
  end.


(** ** What a sign-in may do to the table *)

(** [db'] holds every record of [db], in place and unchanged but for
    [last_login], followed by at most one new record. *)
Definition keeps_records (db db' : Store.DB) : Prop :=
  ∃ kept added,
    Store.users db' = (kept ++ added)%list ∧
    Forall2 only_last_login_differs (Store.users db) kept ∧
    (length added ≤ 1)%nat.

(** The redirect the callback route answers an attempt with, if it
    answers with one. *)
Definition redirect_of (a : Attempt) : option string :=
  match a with
  | Settles r =>
      match auth_google_callback r with
      | Respond (Redirect location) => Some location
      | _ => None
      end
  | Crashes _ => None
  end.


(** ** Template interpolation

    [`${v}`]: the string a value is turned into. Numbers are integers
    here. *)
Fixpoint to_string (v : value) : string :=
  match v with
  | VUndefined => "undefined"
  | VNull => "null"
  | VBool b => if b then "true" else "false"
  | VNum n => pretty n
  | VStr s => s
  | VArr elems =>
      String.concat ","
        ((fix each (l : list value) : list string :=
            match l with
            | [] => []
            | x :: l' =>
                match x with
                | VUndefined | VNull => EmptyString
                | _ => to_string x
                end :: each l'
            end) elems)
  | VObj _ => "[object Object]"
  end.

(** ** The dashboard ([GET /dashboard], lines 520-747)

    The page is a template literal; what is kept of it is what it
    interpolates, field by field, not its markup. *)
Record DashboardPage : Type := {
  title_name : string;
  welcome_banner : bool;
  img_src : string;
  heading : string;
  email_line : string;
  badge : string;
  member_since : option Z;
  account_id : string
}.

(** The time value of [new Date(v)], [None] for an invalid date. *)
Definition Date_of (Date_parse : string → option Z) (v : value) : option Z :=
  match v with
  | VUndefined => None
  | VNull => Some 0
  | VBool b => Some (if b then 1 else 0)
  | VNum n => Some n
  | VStr s => Date_parse s
  | VArr _ | VObj _ => Date_parse (to_string v)
  end.

(** [v.substring(0, 8)]: only strings have the method. *)
Definition substring_0_8 (v : value) : exn + string :=
  match v with
  | VStr s => inr (String.substring 0 8 s)
  | VUndefined | VNull => inl (cannot_read "substring")
  | _ => inl (TypeError "req.user.id.substring is not a function")
  end.

(** The handler behind the gate; [query] is [req.query]. The date is
    kept as the time value handed to [toLocaleDateString]. *)
Definition dashboard_handler (Date_parse : string → option Z) (query : object)
    (req : Req) : exn + DashboardPage :=
  let prop k := default VUndefined (lookup_prop (user req) k) in
  let isNewUser := strict_eq_string (default VUndefined (assoc "welcome" query)) "true" in
  let joinDate := Date_of Date_parse (prop "created_at") in
  match substring_0_8 (prop "id") with
  | inl e => inl e
  | inr id8 =>
      inr {| title_name := to_string (prop "name");
             welcome_banner := isNewUser;
             img_src := to_string (prop "picture");
             heading := to_string (prop "name");
             email_line := to_string (prop "email");
             badge := if truthy (prop "is_active") then "Active" else "Inactive";
             member_since := joinDate;
             account_id := id8 |}
  end.

Inductive DashboardAnswer : Type :=
| Stopped (h : Handled)
| Rendered (p : DashboardPage).

Definition dashboard_route (Date_parse : string → option Z) (query : object)
    (req : Req) : DashboardAnswer :=
  match isAuthenticated req with
  | Next =>
      match dashboard_handler Date_parse query req with
      | inl e => Stopped (NextError e)
      | inr p => Rendered p
      end
  | h => Stopped h
  end.

(** ** The admin page ([GET /admin], lines 750-778) *)

(** The answer to
    [from('users').select('*').order('created_at', { ascending: false })]. *)
Record Listing : Type := { listed : option (list User.t); failure : option PgError }.

Inductive ListingSettled : Type :=
| ListingFulfilled (l : Listing)
| ListingRejected (reason : value).

(** A route that answers at once or after one query to the store. *)
Inductive AdminRoute : Type :=
| Answers (h : Handled)
| Asks (k : ListingSettled → Handled).

Definition loading_failed : HttpResponse := Send 500 "Error loading admin dashboard".

(** [generateAdminDashboard] is a parameter; [now] is read after the
    store has answered. *)
Definition admin_handler (Date_parse : string → option Z) (tz : Z)
    (generateAdminDashboard : list User.t → Stats → string) (now : Z)
    (s : ListingSettled) : Handled :=
  match s with
  | ListingRejected _ => Respond loading_failed
  | ListingFulfilled l =>
      match failure l with
      | Some _ => Respond loading_failed
      | None =>
          match listed l with
          | None => Respond loading_failed
          | Some users =>
              Respond (Send 200 (generateAdminDashboard users
                                   (stats Date_parse tz users now)))
          end
      end
  end.

Definition admin_route (env : option string) (Date_parse : string → option Z) (tz : Z)
    (generateAdminDashboard : list User.t → Stats → string) (now : Z)
    (req : Req) : AdminRoute :=
  match isAdmin env req with
  | Next => Asks (admin_handler Date_parse tz generateAdminDashboard now)
  | h => Answers h
  end.


(** ** Regular expressions

    The fragment the scripts' patterns are written in: literal
    characters, negated classes, concatenation and repetition, matched
    against the whole string as [^...$] asks. [test] decides a match by
    derivatives; [Matches] says what a match is. *)

Module Regex.
Import Stdlib.Strings.Ascii.

Inductive t : Type :=
| Void
| Eps
| Chr (c : ascii)
| NoneOf (excluded : string)
| Alt (r1 r2 : t)
| Cat (r1 r2 : t)
| Star (r : t).

(** [r+] *)
Definition Plus (r : t) : t := Cat r (Star r).

Fixpoint lit (s : string) : t :=
  match s with
  | EmptyString => Eps
  | String c s' => Cat (Chr c) (lit s')
  end.

Fixpoint occurs (c : ascii) (s : string) : bool :=
  match s with
  | EmptyString => false
  | String x s' => Ascii.eqb c x || occurs c s'
  end.

Fixpoint nullable (r : t) : bool :=
  match r with
  | Void | Chr _ | NoneOf _ => false
  | Eps | Star _ => true
  | Alt r1 r2 => nullable r1 || nullable r2
  | Cat r1 r2 => nullable r1 && nullable r2
  end.

Fixpoint deriv (c : ascii) (r : t) : t :=
  match r with
  | Void | Eps => Void
  | Chr x => if Ascii.eqb c x then Eps else Void
  | NoneOf excluded => if occurs c excluded then Void else Eps
  | Alt r1 r2 => Alt (deriv c r1) (deriv c r2)
  | Cat r1 r2 =>
      if nullable r1 then Alt (Cat (deriv c r1) r2) (deriv c r2)
      else Cat (deriv c r1) r2
  | Star r' => Cat (deriv c r') (Star r')
  end.

Fixpoint test (r : t) (s : string) : bool :=
  match s with
  | EmptyString => nullable r
  | String c s' => test (deriv c r) s'
  end.

Inductive Matches : t → string → Prop :=
| MEps : Matches Eps EmptyString
| MChr (c : ascii) : Matches (Chr c) (String c EmptyString)
| MNoneOf (excluded : string) (c : ascii) :
    occurs c excluded = false → Matches (NoneOf excluded) (String c EmptyString)
| MAltL (r1 r2 : t) (s : string) : Matches r1 s → Matches (Alt r1 r2) s
| MAltR (r1 r2 : t) (s : string) : Matches r2 s → Matches (Alt r1 r2) s
| MCat (r1 r2 : t) (s1 s2 : string) :
    Matches r1 s1 → Matches r2 s2 → Matches (Cat r1 r2) (s1 +:+ s2)
| MStarNil (r : t) : Matches (Star r) EmptyString
| MStarCons (r : t) (s1 s2 : string) :
    Matches r s1 → Matches (Star r) s2 → Matches (Star r) (s1 +:+ s2).

End Regex.

(** ** The Gmail watch diagnostic ([diagnose-gmail-watch.js]) *)

Module Diagnose.
#[local] Open Scope list_scope.

Definition requiredEnvVars : list string :=
  [ "GOOGLE_CLIENT_ID"; "GOOGLE_CLIENT_SECRET"; "CALLBACK_URL";
    "SUPABASE_URL"; "SUPABASE_ANON_KEY"; "GMAIL_PUBSUB_TOPIC" ].

(** [process.env[varName]] is a string or undefined; the test
    [if (process.env[varName])] takes the empty string as unset. *)
Definition is_set (env : string → option string) (varName : string) : bool :=
  match env varName with
  | Some s => negb (String.eqb s EmptyString)
  | None => false
  end.

(** [/^projects\/[^/]+\/topics\/[^/]+$/] *)
Definition topicPattern : Regex.t :=
  Regex.Cat (Regex.lit "projects/")
    (Regex.Cat (Regex.Plus (Regex.NoneOf "/"))
       (Regex.Cat (Regex.lit "/topics/") (Regex.Plus (Regex.NoneOf "/")))).

(** A segment of a topic name: not empty and without a slash. *)
Definition segment (s : string) : Prop :=
  s ≠ EmptyString ∧ ∀ c, Regex.occurs c s = true → Regex.occurs c "/" = false.

(** The rows of step 4: [u.access_token && u.refresh_token] and
    [!u.access_token || !u.refresh_token] on a row object. *)
Definition field (u : object) (k : string) : value := default VUndefined (assoc k u).

Definition has_tokens (u : object) : bool :=
  truthy (field u "access_token") && truthy (field u "refresh_token").

Definition lacks_tokens (u : object) : bool :=
  negb (truthy (field u "access_token")) || negb (truthy (field u "refresh_token")).

Definition usersWithTokens (users : list object) : list object :=
  List.filter has_tokens users.

Definition usersWithoutTokens (users : list object) : list object :=
  List.filter lacks_tokens users.

(** What the tool prints, line by line. Headings, blank lines and the
    closing advice, which are the same on every run, are left out; each
    constructor stands for one [console.log] whose text depends on the
    run. *)
Inductive Line : Type :=
| EnvOk (varName shown : string)
| EnvMissing (varName : string)
| MissingSummary (names : string)
| ConnectionOk
| ConnectionFailed (message : string)
| ColumnsMissing (message : string)
| ColumnsOk
| SchemaCheckFailed (message : string)
| TotalUsers (n : nat)
| WithTokens (n : nat)
| WithoutTokens (n : nat)
| TokenUser (email watch : string)
| NeedsReauth (email : string)
| UserCheckFailed (message : string)
| TopicOk (topic : string)
| TopicBad (topic : string)
| Complete.

(** The three queries, in the order of the steps:
    [from('users').select('id').limit(1)],
    [from('users').select('access_token, refresh_token, token_expiry,
    gmail_watch_enabled, gmail_watch_expiration, gmail_history_id').limit(1)]
    and [from('users').select('id, email, access_token, refresh_token,
    gmail_watch_enabled')]. *)
Inductive Query : Type :=
| CheckConnection
| CheckColumns
| ListTokens.

Record Answer : Type := { found : option (list object); problem : option PgError }.

Inductive Reply : Type :=
| Replied (a : Answer)
| Refused (reason : value).

(** The tool as it runs: it ends, or an exception escapes it, or it
    waits for the store; [out] is what it has printed since the last
    wait. *)
Inductive Tool : Type :=
| Ends (out : list Line)
| Escapes (out : list Line) (e : exn)
| Asks (out : list Line) (q : Query) (k : Reply → Tool).

(** [error.message] in a [catch] block; [None] when reading it throws. *)
Definition caught_message (e : exn) : option string :=
  match e with
  | TypeError msg => Some msg
  | PostgrestError e' => Some (message e')
  | Rejection reason => to_string <$> lookup_prop reason "message"
  end.

(** [try { ... } catch (error) { console.log(... error.message); return; }] *)
Definition on_error (report : string → Line) (e : exn) : Tool :=
  match caught_message e with
  | Some m => Ends [report m]
  | None => Escapes [] (cannot_read "message")
  end.

(** Step 1: the loop over [requiredEnvVars], pushing to [missingVars]. *)
Definition check_env (env : string → option string) : list Line * list string :=
  foldl (fun '(out, missingVars) varName =>
           if is_set env varName then
             (out ++ [EnvOk varName
                        (if String.eqb varName "GMAIL_PUBSUB_TOPIC"
                         then default EmptyString (env varName) else "Set")],
              missingVars)
           else (out ++ [EnvMissing varName], missingVars ++ [varName]))
        ([], []) requiredEnvVars.

(** Step 5 and the end. *)
Definition check_topic (env : string → option string) : Tool :=
  let topic := from_option id "undefined" (env "GMAIL_PUBSUB_TOPIC") in
  Ends [if Regex.test topicPattern topic then TopicOk topic else TopicBad topic;
        Complete].

(** Step 4. *)
Definition report_users (users : list object) : list Line :=
  let withTokens := usersWithTokens users in
  let withoutTokens := usersWithoutTokens users in
  [TotalUsers (length users); WithTokens (length withTokens)] ++
  (if (0 <? length withoutTokens)%nat then [WithoutTokens (length withoutTokens)] else []) ++
  (if (0 <? length withTokens)%nat then
     map (fun u => TokenUser (to_string (field u "email"))
                     (if truthy (field u "gmail_watch_enabled")
                      then "Enabled" else "Disabled")) withTokens
   else []) ++
  (if (0 <? length withoutTokens)%nat then
     map (fun u => NeedsReauth (to_string (field u "email"))) withoutTokens
   else []).

Definition check_users (env : string → option string) : Tool :=
  Asks [] ListTokens (fun r =>
    match r with
    | Refused reason => on_error UserCheckFailed (Rejection reason)
    | Replied a =>
        match problem a with
        | Some e => on_error UserCheckFailed (PostgrestError e)
        | None =>
            match found a with
            | None => on_error UserCheckFailed (cannot_read "filter")
            | Some users =>
                match check_topic env with
                | Ends out => Ends (report_users users ++ out)
                | t => t
                end
            end
        end
    end).

(** Step 3. *)
Definition check_columns (env : string → option string) : Tool :=
  Asks [] CheckColumns (fun r =>
    match r with
    | Refused reason => on_error SchemaCheckFailed (Rejection reason)
    | Replied a =>
        match problem a with
        | Some e => Ends [ColumnsMissing (message e)]
        | None =>
            match check_users env with
            | Asks out q k => Asks (ColumnsOk :: out) q k
            | t => t
            end
        end
    end).

(** Step 2. *)
Definition check_connection (env : string → option string) : Tool :=
  Asks [] CheckConnection (fun r =>
    match r with
    | Refused reason => on_error ConnectionFailed (Rejection reason)
    | Replied a =>
        match problem a with
        | Some e => on_error ConnectionFailed (PostgrestError e)
        | None =>
            match check_columns env with
            | Asks out q k => Asks (ConnectionOk :: out) q k
            | t => t
            end
        end
    end).

Definition diagnoseGmailWatch (env : string → option string) : Tool :=
  let '(out, missingVars) := check_env env in
  if (0 <? length missingVars)%nat then
    Ends (out ++ [MissingSummary (String.concat ", " missingVars)])
  else
    match check_connection env with
    | Asks out' q k => Asks (out ++ out') q k
    | t => t
    end.

(** A run against a store that answers each query: what is printed,
    the queries sent, oldest first, and the exception that escaped, if
    one did. *)
Fixpoint run (answer : Query → Reply) (t : Tool) : list Line * list Query * option exn :=
  match t with
  | Ends out => (out, [], None)
  | Escapes out e => (out, [], Some e)
  | Asks out q k =>
      let '(out', qs, e) := run answer (k (answer q)) in
      (out ++ out', q :: qs, e)
  end.

(** A reply the step accepts. *)
Definition accepted (r : Reply) : bool :=
  match r with
  | Replied a => match problem a with None => true | Some _ => false end
  | Refused _ => false
  end.

Definition lists_users (r : Reply) : bool :=
  match r with
  | Replied a =>
      match problem a, found a with
      | None, Some _ => true
      | _, _ => false
      end
  | Refused _ => false
  end.

(** The columns step 3 selects. *)
Definition checked_columns : list string :=
  [ "access_token"; "refresh_token"; "token_expiry"; "gmail_watch_enabled";
    "gmail_watch_expiration"; "gmail_history_id" ].

(** Output without the closing line. *)
Definition quiet (out : list Line) : Prop := Forall (fun l => l ≠ Complete) out.

End Diagnose.

(** ** The automated setup ([automated_setup.js]) *)

Module Setup.
Import Stdlib.Strings.Ascii.
#[local] Open Scope list_scope.

(** [path.split('.')] *)
Fixpoint split_dots (path : string) : list string :=
  match path with
  | EmptyString => [EmptyString]
  | String c path' =>
      if Ascii.eqb c "."%char then EmptyString :: split_dots path'
      else
        match split_dots path' with
        | key :: keys => String c key :: keys
        | [] => [String c EmptyString]
        end
  end.

(** [current?.[key]], for the keys of {!required}: none of them is an
    array index or a method of a built-in prototype. *)
Definition optional_get (current : value) (key : string) : value :=
  match current with
  | VUndefined | VNull => VUndefined
  | _ => default VUndefined (lookup_prop current key)
  end.

(** [path.split('.').reduce((current, key) => current?.[key], obj)] *)
Definition getNestedValue (obj : value) (path : string) : value :=
  foldl optional_get obj (split_dots path).

Definition required : list string :=
  [ "google_oauth.client_id";
    "google_oauth.client_secret";
    "supabase.project_url";
    "supabase.anon_key" ].

(** [!value || value.startsWith('YOUR_')]; only strings have the
    method, so the call throws on any other truthy value. *)
Definition missing_or_placeholder (v : value) : exn + bool :=
  if negb (truthy v) then inr true
  else
    match v with
    | VStr s => inr (String.prefix "YOUR_" s)
    | _ => inl (TypeError "value.startsWith is not a function")
    end.

(** The loop of [validateConfig]; [errors] is [this.errors]. *)
Fixpoint validate (config : value) (keys : list string) (valid : bool)
    (errors : list string) : (exn + bool) * list string :=
  match keys with
  | [] => (inr valid, errors)
  | key :: keys' =>
      match missing_or_placeholder (getNestedValue config key) with
      | inl e => (inl e, errors)
      | inr true =>
          validate config keys' false
            (errors ++ ["Missing or placeholder value for: " +:+ key])
      | inr false => validate config keys' valid errors
      end
  end.

Definition validateConfig (config : value) (errors : list string)
    : (exn + bool) * list string :=
  validate config required true errors.

(** A credential as the configuration file should hold it: a string
    under [section.key] that is not empty and not a placeholder. *)
Definition credential (config : value) (section key : string) : Prop :=
  ∃ o sec s,
    config = VObj o ∧ assoc section o = Some (VObj sec) ∧
    assoc key sec = Some (VStr s) ∧
    s ≠ EmptyString ∧ String.prefix "YOUR_" s = false.

(** A value [startsWith] cannot be called on. *)
Definition not_a_string (v : value) : Prop :=
  truthy v = true ∧ ∀ s, v ≠ VStr s.

(** [v.join(',')] *)
Definition join_comma (v : value) : Eff string :=
  match v with
  | VArr _ => Return (to_string v)
  | VUndefined | VNull => Throw (cannot_read "join")
  | _ => Throw (TypeError "this.config.application.allowed_domains.join is not a function")
  end.

Definition nl : string := String (Ascii.ascii_of_nat 10) EmptyString.

(** The template literal of [generateEnvFile], line by line. *)
Definition envContent (client_id client_secret callback_url project_url anon_key
    service_role_key session_secret : value) (origins : string) : string :=
  String.concat nl
    [ "# Auto-generated environment variables";
      "NODE_ENV=production";
      "PORT=3000";
      EmptyString;
      "# Google OAuth";
      "GOOGLE_CLIENT_ID=" +:+ to_string client_id;
      "GOOGLE_CLIENT_SECRET=" +:+ to_string client_secret;
      "CALLBACK_URL=" +:+ to_string callback_url;
      EmptyString;
      "# Supabase";
      "SUPABASE_URL=" +:+ to_string project_url;
      "SUPABASE_ANON_KEY=" +:+ to_string anon_key;
      "SUPABASE_SERVICE_ROLE_KEY=" +:+ to_string service_role_key;
      EmptyString;
      "# Session";
      "SESSION_SECRET=" +:+ to_string session_secret;
      EmptyString;
      "# CORS";
      "ALLOWED_ORIGINS=http://localhost:3000," +:+ origins;
      EmptyString ].

(** [generateEnvFile]: the text written to [.env]. The template reads
    [this.config] anew for every value, left to right. *)
Definition generateEnvFile (config : value) : Eff string :=
  google_oauth ← get_prop config "google_oauth";
  client_id ← get_prop google_oauth "client_id";
  google_oauth ← get_prop config "google_oauth";
  client_secret ← get_prop google_oauth "client_secret";
  google_oauth ← get_prop config "google_oauth";
  redirect_uris ← get_prop google_oauth "redirect_uris";
  redirect_uri ← get_index redirect_uris 1;
  let callback_url :=
    if truthy redirect_uri then redirect_uri else VStr "/auth/google/callback" in
  supabase ← get_prop config "supabase";
  project_url ← get_prop supabase "project_url";
  supabase ← get_prop config "supabase";
  anon_key ← get_prop supabase "anon_key";
  supabase ← get_prop config "supabase";
  service_role_key ← get_prop supabase "service_role_key";
  railway ← get_prop config "railway";
  environment_variables ← get_prop railway "environment_variables";
  session_secret ← get_prop environment_variables "SESSION_SECRET";
  application ← get_prop config "application";
  allowed_domains ← get_prop application "allowed_domains";
  origins ← join_comma allowed_domains;
  Return (envContent client_id client_secret callback_url project_url anon_key
            service_role_key session_secret origins).

(** [s.includes(sub)] *)
Fixpoint includes (s sub : string) : bool :=
  String.prefix sub s ||
  match s with
  | EmptyString => false
  | String _ s' => includes s' sub
  end.

Inductive TestResult : Type :=
| Passes
| Throws (message : string).

(** [testEnvVars] on the text read from [.env]. *)
Definition testEnvVars (text : string) : TestResult :=
  match List.find (fun key => negb (includes text (key +:+ "=")))
          ["GOOGLE_CLIENT_ID"; "SUPABASE_URL"; "SESSION_SECRET"] with
  | Some key => Throws ("Missing " +:+ key)
  | None => Passes
  end.

(** A configuration with every section and no value. *)
Definition empty_sections : value :=
  VObj [ ("google_oauth", VObj [("redirect_uris", VArr [])]);
         ("supabase", VObj []);
         ("railway", VObj [("environment_variables", VObj [])]);
         ("application", VObj [("allowed_domains", VArr [])]) ].

End Setup.

(** A users table from before [is_active] and [last_login] were added,
    holding two records. *)
Definition old_users : Ddl.Table :=
  {| Ddl.columns := [ Ddl.col "id" "UUID" "PRIMARY KEY";
                      Ddl.col "google_id" "TEXT" "UNIQUE NOT NULL";
                      Ddl.col "email" "TEXT" "UNIQUE NOT NULL" ];
     Ddl.rows := 2;
     Ddl.indexes := ∅ |}.

(** ** Tactics *)

Ltac not_in_columns :=
  let H := fresh in
  intros H;
  repeat (apply elem_of_cons in H as [H|H]; [discriminate H|]);
  by apply elem_of_nil in H.

(** * Properties *)

(** ** The callback as a computation *)

Lemma run_try_catch {A W : Type} (perform : Request → W → Settled * W)
    (m : Eff A) (f : exn → A) (w : W) :
  run perform (try_catch m (fun e => Return (f e))) w =
  let '(c, w', qs) := run perform m w in
  (Returned match c with Returned a => a | Uncaught e => f e end, w', qs).
Proof.
  revert w. induction m as [a|e|q k IH]; intros w; simpl; try reflexivity.
  destruct (perform q w) as [s w1]. rewrite IH.
  destruct (run perform (k s) w1) as [[c w2] qs]. reflexivity.
Qed.

Lemma read_profile_pure (profile : value) :
  (∃ g e n p, read_profile profile = Return (g, e, n, p)) ∨
  (∃ msg, read_profile profile = Throw (TypeError msg)).
Proof.
  unfold read_profile, get_prop, get_index, get_prop_opt, get_prop, cannot_read.
  destruct (lookup_prop profile "id") as [g|]; cbn; [|eauto].
  destruct (lookup_prop profile "emails") as [es|]; cbn; [|eauto].
  destruct (lookup_index es 0) as [e0|]; cbn; [|eauto].
  destruct (lookup_prop e0 "value") as [e|]; cbn; [|eauto].
  destruct (lookup_prop profile "displayName") as [n|]; cbn; [|eauto].
  destruct (lookup_prop profile "photos") as [ps|]; cbn; [|eauto].
  destruct (lookup_index ps 0) as [p0|]; cbn; [|eauto].
  destruct p0; cbn; eauto 10.
Qed.

Lemma run_after_select {W : Type} (perform : Request → W → Settled * W)
    (g e n p : value) (now : string) (w : W) :
  run perform
    (r ← await (select_user g);
     let user := data r in
     let fetchError := error r in
     _ ← match fetchError with
         | Some e =>
             if negb (String.eqb (code e) "PGRST116")
             then Throw (PostgrestError e)
             else Return ()
         | None => Return ()
         end;
     '(user, isNewUser) ←
       match user with
       | None =>
           r' ← await (insert_user g e n p);
           let newUser := data r' in
           match error r' with
           | Some insertError => Throw (PostgrestError insertError)
           | None => Return (newUser, true)
           end
       | Some u =>
           id ← get_prop (VObj u) "id";
           _ ← await (update_last_login now id);
           Return (Some u, false)
       end;
     user ← set_field user "isNewUser" (VBool isNewUser);
     Return (Done None (Some user))) w =
  run perform (Await (select_user g) (after_select g e n p now)) w.
Proof.
  cbn. destruct (perform (select_user g) w) as [[[d [err|]]|reason] w1]; cbn; [| |reflexivity].
  - destruct (String.eqb (code err) "PGRST116"); cbn; [|reflexivity].
    destruct d as [u|]; cbn.
    + destruct (perform _ w1) as [[r|reason] w2]; reflexivity.
    + destruct (perform _ w1) as [[[d' [err'|]]|reason] w2]; cbn; try reflexivity.
      destruct d'; reflexivity.
  - destruct d as [u|]; cbn.
    + destruct (perform _ w1) as [[r|reason] w2]; reflexivity.
    + destruct (perform _ w1) as [[[d' [err'|]]|reason] w2]; cbn; try reflexivity.
      destruct d'; reflexivity.
Qed.

Lemma verify_body_read (profile : value) (now : string) :
  match read_profile profile with
  | Return (g, e, n, p) =>
      ∀ (W : Type) (perform : Request → W → Settled * W) (w : W),
        run perform (verify_body profile now) w =
        run perform (Await (select_user g) (after_select g e n p now)) w
  | Throw x => verify_body profile now = Throw x
  | Await _ _ => False
  end.
Proof.
  unfold read_profile, verify_body, get_prop, get_index, get_prop_opt, get_prop.
  destruct (lookup_prop profile "id") as [g|]; cbn; [|reflexivity].
  destruct (lookup_prop profile "emails") as [es|]; cbn; [|reflexivity].
  destruct (lookup_index es 0) as [e0|]; cbn; [|reflexivity].
  destruct (lookup_prop e0 "value") as [e|]; cbn; [|reflexivity].
  destruct (lookup_prop profile "displayName") as [n|]; cbn; [|reflexivity].
  destruct (lookup_prop profile "photos") as [ps|]; cbn; [|reflexivity].
  destruct (lookup_index ps 0) as [p0|]; cbn; [|reflexivity].
  destruct p0; cbn; intros; apply (run_after_select perform).
Qed.

Lemma run_select_paths {W : Type} (perform : Request → W → Settled * W)
    (g e n p : value) (now : string) (w : W) :
  ∃ c w' qs,
    run perform (Await (select_user g) (after_select g e n p now)) w = (c, w', qs) ∧
    path now match c with Returned d => d | Uncaught x => Done (Some x) None end qs.
Proof.
  cbn. destruct (perform (select_user g) w) as [[[d [err|]]|reason] w1]; cbn.
  - destruct (String.eqb (code err) "PGRST116"); cbn.
    + destruct d as [u|]; cbn.
      * destruct (perform _ w1) as [[r|reason] w2]; cbn;
          do 3 eexists; (split; [reflexivity|]); constructor.
      * destruct (perform _ w1) as [[[d' [err'|]]|reason] w2]; cbn;
          try destruct d'; cbn; do 3 eexists; (split; [reflexivity|]); constructor.
    + do 3 eexists; (split; [reflexivity|]); constructor.
  - destruct d as [u|]; cbn.
    + destruct (perform _ w1) as [[r|reason] w2]; cbn;
        do 3 eexists; (split; [reflexivity|]); constructor.
    + destruct (perform _ w1) as [[[d' [err'|]]|reason] w2]; cbn;
        try destruct d'; cbn; do 3 eexists; (split; [reflexivity|]); constructor.
  - do 3 eexists; (split; [reflexivity|]); constructor.
Qed.

Lemma verify_paths {W : Type} (perform : Request → W → Settled * W)
    (profile : value) (now : string) (w : W) :
  ∃ d w' qs,
    run perform (verify profile now) w = (Returned d, w', qs) ∧ path now d qs.
Proof.
  unfold verify. rewrite run_try_catch.
  pose proof (verify_body_read profile now) as Hbody.
  destruct (read_profile_pure profile) as [(g & e & n & p & Hr)|(msg & Hr)];
    rewrite Hr in Hbody.
  - rewrite Hbody.
    destruct (run_select_paths perform g e n p now w) as (c & w' & qs & -> & Hp).
    eauto.
  - rewrite Hbody. cbn. do 3 eexists. split; [reflexivity|]. constructor.
Qed.

Lemma path_done (now : string) (d : DoneCall) (qs : list Request) :
  path now d qs →
  (∃ u, d = Done None (Some u)) ∨ (∃ e, d = Done (Some e) None).
Proof. destruct 1; eauto. Qed.

Lemma eq_filter_google_id (g : string) (u : User.t) :
  Store.eq_filter "google_id" (VStr g) u = String.eqb g (User.google_id u).
Proof. reflexivity. Qed.

Lemma eq_filter_id (i : string) (u : User.t) :
  Store.eq_filter "id" (VStr i) u = String.eqb i (User.id u).
Proof. reflexivity. Qed.

Lemma taken_false (f : User.t → string) (s : string) (us : list User.t) :
  s ∉ f <$> us → Store.taken f s us = false.
Proof.
  induction us as [|u us IH]; [reflexivity|]. intros Hn.
  rewrite fmap_cons, not_elem_of_cons in Hn. destruct Hn as [Hne Hn].
  unfold Store.taken in *. cbn [existsb]. rewrite IH by exact Hn.
  rewrite orb_false_r. apply String.eqb_neq. congruence.
Qed.

Lemma taken_true (f : User.t → string) (u : User.t) (us : list User.t) :
  u ∈ us → Store.taken f (f u) us = true.
Proof.
  intros Hin. unfold Store.taken. apply existsb_exists. exists u.
  split; [by apply list_elem_of_In|]. apply String.eqb_refl.
Qed.

Lemma select_none (g : string) (us : list User.t) :
  g ∉ User.google_id <$> us →
  filter (fun u => Store.eq_filter "google_id" (VStr g) u = true) us = [].
Proof.
  induction us as [|u us IH]; [reflexivity|]. intros Hn.
  rewrite fmap_cons, not_elem_of_cons in Hn. destruct Hn as [Hne Hn].
  rewrite filter_cons_False; [by apply IH|].
  rewrite eq_filter_google_id. by apply not_true_iff_false, String.eqb_neq.
Qed.

Lemma select_one (u : User.t) (us : list User.t) :
  NoDup (User.google_id <$> us) → u ∈ us →
  filter (fun r => Store.eq_filter "google_id" (VStr (User.google_id u)) r = true) us = [u].
Proof.
  induction us as [|r us IH]; intros Hnd Hin; [by apply elem_of_nil in Hin|].
  rewrite fmap_cons in Hnd. apply NoDup_cons in Hnd as [Hr Hnd].
  apply elem_of_cons in Hin as [->|Hin].
  - rewrite filter_cons_True by (rewrite eq_filter_google_id; apply String.eqb_refl).
    f_equal. by apply select_none.
  - rewrite filter_cons_False; [by apply IH|].
    rewrite eq_filter_google_id. apply not_true_iff_false, String.eqb_neq.
    intros Heq. apply Hr. rewrite <- Heq. by apply list_elem_of_fmap_2.
Qed.

Lemma read_profile_of (a : Assertion.t) :
  read_profile (profile_of a) =
  Return (VStr (Assertion.subject_id a), VStr (Assertion.email a),
          VStr (Assertion.display_name a),
          from_option VStr VUndefined (Assertion.avatar_url a)).
Proof. destruct a as [sid em dn [url|]]; reflexivity. Qed.

Lemma run_verify_of {W : Type} (perform : Request → W → Settled * W)
    (a : Assertion.t) (now : string) (w : W) :
  run perform (verify (profile_of a) now) w =
  run perform
    (try_catch
       (Await (select_user (VStr (Assertion.subject_id a)))
          (after_select (VStr (Assertion.subject_id a)) (VStr (Assertion.email a))
             (VStr (Assertion.display_name a))
             (from_option VStr VUndefined (Assertion.avatar_url a)) now))
       (fun error => Return (Done (Some error) None))) w.
Proof.
  unfold verify. rewrite !run_try_catch.
  pose proof (verify_body_read (profile_of a) now) as Hbody.
  rewrite read_profile_of in Hbody. by rewrite Hbody.
Qed.

Lemma insert_new_user (db : Store.DB) (a : Assertion.t) :
  Assertion.subject_id a ∉ User.google_id <$> Store.users db →
  Assertion.email a ∉ User.email <$> Store.users db →
  Store.insert_row
    [("google_id", VStr (Assertion.subject_id a));
     ("email", VStr (Assertion.email a));
     ("name", VStr (Assertion.display_name a));
     ("picture", from_option VStr VUndefined (Assertion.avatar_url a))] db =
  inr (new_user a db).
Proof.
  intros Hg He. unfold Store.insert_row.
  change (forallb Store.has_column _) with true.
  cbn [negb assoc String.eqb Ascii.eqb Bool.eqb Store.text_cell].
  rewrite (taken_false _ _ _ Hg), (taken_false _ _ _ He).
  destruct a as [sid em dn [url|]]; reflexivity.
Qed.

Lemma first_login_run (db : Store.DB) (a : Assertion.t) (now : string) :
  Assertion.subject_id a ∉ User.google_id <$> Store.users db →
  Assertion.email a ∉ User.email <$> Store.users db →
  sign_in Store.perform (profile_of a) now db =
  (Settles (Success ((to_object (new_user a db) ++ [("isNewUser", VBool true)])%list)),
   Store.with_users ((Store.users db ++ [new_user a db])%list) db,
   [select_user (VStr (Assertion.subject_id a));
    insert_user (VStr (Assertion.subject_id a)) (VStr (Assertion.email a))
      (VStr (Assertion.display_name a))
      (from_option VStr VUndefined (Assertion.avatar_url a))]).
Proof.
  intros Hg He. unfold sign_in. rewrite run_verify_of.
  cbn [try_catch run select_user Store.perform String.eqb Ascii.eqb Bool.eqb negb].
  rewrite select_none by exact Hg.
  cbn [Store.single Store.no_single_row Store.pg_error after_select error data code
       String.eqb Ascii.eqb Bool.eqb try_catch run insert_user Store.perform negb
       Store.insert_rows].
  rewrite insert_new_user by assumption.
  reflexivity.
Qed.

Lemma update_where_miss (i now : string) (us : list User.t) :
  i ∉ User.id <$> us →
  Store.update_where "id" (VStr i) [("last_login", VStr now)] us = Some us.
Proof.
  induction us as [|r us IH]; [reflexivity|]. intros Hn.
  rewrite fmap_cons, not_elem_of_cons in Hn. destruct Hn as [Hne Hn].
  cbn [Store.update_where]. rewrite eq_filter_id.
  replace (String.eqb i (User.id r)) with false
    by (symmetry; by apply String.eqb_neq).
  cbn. by rewrite IH.
Qed.

Lemma update_where_hit (now : string) (u : User.t) (before after : list User.t) :
  User.id u ∉ User.id <$> before →
  User.id u ∉ User.id <$> after →
  Store.update_where "id" (VStr (User.id u)) [("last_login", VStr now)]
    (before ++ u :: after) =
  Some (before ++ User.with_last_login (Some now) u :: after)%list.
Proof.
  induction before as [|r before IH]; intros Hb Ha.
  - cbn [app Store.update_where]. rewrite eq_filter_id, String.eqb_refl.
    cbn. by rewrite update_where_miss.
  - rewrite fmap_cons, not_elem_of_cons in Hb. destruct Hb as [Hne Hb].
    cbn [app Store.update_where]. rewrite eq_filter_id.
    replace (String.eqb (User.id u) (User.id r)) with false
      by (symmetry; by apply String.eqb_neq).
    cbn. by rewrite IH.
Qed.

Lemma returning_login_run (db : Store.DB) (a : Assertion.t) (now : string)
    (u : User.t) (before after : list User.t) :
  Store.wf db →
  Store.users db = (before ++ u :: after)%list →
  User.google_id u = Assertion.subject_id a →
  sign_in Store.perform (profile_of a) now db =
  (Settles (Success ((to_object u ++ [("isNewUser", VBool false)])%list)),
   Store.with_users ((before ++ User.with_last_login (Some now) u :: after)%list) db,
   [select_user (VStr (Assertion.subject_id a));
    update_last_login now (VStr (User.id u))]).
Proof.
  intros [Hid Hgid _] Hsplit Hsub. unfold sign_in. rewrite run_verify_of.
  cbn [try_catch run select_user Store.perform String.eqb Ascii.eqb Bool.eqb negb].
  rewrite <- Hsub, select_one; [|exact Hgid|rewrite Hsplit; set_solver].
  cbn [Store.single after_select error data try_catch run].
  change (default VUndefined (assoc "id" (to_object u))) with (VStr (User.id u)).
  cbn [update_last_login Store.perform String.eqb Ascii.eqb Bool.eqb negb].
  rewrite Hsplit in Hid |- *.
  rewrite fmap_app, fmap_cons in Hid.
  apply NoDup_app in Hid as (_ & Hb & Ha). apply NoDup_cons in Ha as [Ha _].
  rewrite update_where_hit; [reflexivity| |exact Ha].
  intros Hin. apply (Hb _ Hin). by left.
Qed.


Lemma assoc_assoc_set (k : string) (v : value) (o : object) :
  assoc k (assoc_set k v o) = Some v.
Proof.
  induction o as [|[k' v'] o IH]; cbn.
  - by rewrite String.eqb_refl.
  - destruct (String.eqb k k') eqn:Hk; cbn; rewrite ?String.eqb_refl, ?Hk; done.
Qed.

Lemma assoc_set_fresh (k : string) (v : value) (o : object) :
  assoc k o = None → assoc_set k v o = (o ++ [(k, v)])%list.
Proof.
  induction o as [|[k' v'] o IH]; cbn; [done|].
  destruct (String.eqb k k'); [discriminate|]. intros H. by rewrite IH.
Qed.

(** ** The sign-in on the [users] table *)

(** C1, as amended. For every identity assertion whose subject id has
    no record in the store and whose email is not held by any record,
    the sign-in appends exactly one record carrying the subject id,
    email, display name and avatar URL, and hands the caller a user
    flagged [isNewUser = true]. *)
Theorem first_login_creates_user (db : Store.DB) (a : Assertion.t) (now : string) :
  Assertion.subject_id a ∉ User.google_id <$> Store.users db →
  Assertion.email a ∉ User.email <$> Store.users db →
  creates_user db a now.
Proof.
  intros Hg He. unfold creates_user. rewrite first_login_run by assumption.
  exists (new_user a db), (to_object (new_user a db) ++ [("isNewUser", VBool true)])%list.
  repeat split; reflexivity.
Qed.

Lemma first_login_creates_user_witness :
  creates_user alice_db bob "2024-01-02T10:00:00".
Proof.
  apply (first_login_creates_user alice_db bob "2024-01-02T10:00:00").
  - intros H. apply list_elem_of_singleton in H. discriminate H.
  - intros H. apply list_elem_of_singleton in H. discriminate H.
Defined.

(** C1, as stated, fails when the email is already held under another
    subject id: the UNIQUE constraint on [email] refuses the insert and
    the callback reports the error. *)
Lemma first_login_email_taken :
  (Assertion.subject_id same_email ∉ User.google_id <$> Store.users alice_db) ∧
  ¬ creates_user alice_db same_email "2024-01-02T10:00:00".
Proof.
  split.
  - intros H. apply list_elem_of_singleton in H. discriminate H.
  - intros H. vm_compute in H. destruct H as (u & session & Husers & _).
    discriminate Husers.
Qed.

(** What the store answers there. *)
Example first_login_email_taken_run :
  sign_in Store.perform (profile_of same_email) "2024-01-02T10:00:00" alice_db =
  (Settles (Error (PostgrestError
     {| code := "23505"; message := "duplicate key value violates unique constraint" |})),
   alice_db,
   [select_user (VStr "g-1");
    insert_user (VStr "g-1") (VStr "a@x.com") (VStr "A. Liddell") VUndefined]).
Proof. reflexivity. Qed.

(** C2. For every identity assertion whose subject id is held by a
    record [u] of the store, the sign-in inserts nothing, sends exactly
    one update whose patch is [last_login] alone, keyed by the record's
    id, leaves every other record and every other field of [u] as they
    were, and hands the caller a user flagged [isNewUser = false]. *)
Theorem repeat_login_stamps_last_login (db : Store.DB) (a : Assertion.t)
    (now : string) (u : User.t) :
  Store.wf db →
  u ∈ Store.users db →
  User.google_id u = Assertion.subject_id a →
  stamps_last_login db a now u.
Proof.
  intros Hwf Hin Hsub. apply list_elem_of_split in Hin as (before & after & Hsplit).
  unfold stamps_last_login.
  rewrite (returning_login_run db a now u before after Hwf Hsplit Hsub).
  exists before, after, (User.with_last_login (Some now) u),
    (to_object u ++ [("isNewUser", VBool false)])%list.
  repeat split; try reflexivity; exact Hsplit.
Qed.

Lemma repeat_login_stamps_last_login_witness :
  stamps_last_login alice_db alice_again "2024-01-02T10:00:00" alice.
Proof.
  apply (repeat_login_stamps_last_login alice_db alice_again "2024-01-02T10:00:00" alice).
  - split; apply NoDup_singleton.
  - apply list_elem_of_singleton. reflexivity.
  - reflexivity.
Defined.

(** ** The key constraints are kept *)

Lemma length_zeros (n : nat) : String.length (Store.zeros n) = n.
Proof. induction n as [|n IH]; [done|]. simpl. by f_equal. Qed.

Lemma max_length_ge (s : string) (ids : list string) :
  s ∈ ids → (String.length s ≤ Store.max_length ids)%nat.
Proof.
  induction ids as [|i ids IH]; intros Hin; [by apply elem_of_nil in Hin|].
  change (Store.max_length (i :: ids))
    with (Nat.max (String.length i) (Store.max_length ids)).
  apply elem_of_cons in Hin as [->|Hin]; [lia|]. specialize (IH Hin). lia.
Qed.

Lemma gen_random_uuid_fresh (ids : list string) : Store.gen_random_uuid ids ∉ ids.
Proof.
  intros Hin. apply max_length_ge in Hin.
  unfold Store.gen_random_uuid in Hin. rewrite length_zeros in Hin. lia.
Qed.

Lemma taken_spec (f : User.t → string) (s : string) (us : list User.t) :
  Store.taken f s us = false → s ∉ f <$> us.
Proof.
  induction us as [|u us IH]; cbn; [intros _; apply not_elem_of_nil|].
  unfold Store.taken in *. cbn. intros H. apply orb_false_iff in H as [Hu H].
  apply not_elem_of_cons. split; [|by apply IH].
  apply String.eqb_neq in Hu. congruence.
Qed.

Lemma NoDup_snoc {A B : Type} (f : A → B) (l : list A) (x : A) :
  NoDup (f <$> l) → f x ∉ f <$> l → NoDup (f <$> (l ++ [x])%list).
Proof.
  intros Hl Hx. rewrite fmap_app. apply NoDup_app. split; [done|]. split.
  - intros y Hy Hy'. apply list_elem_of_singleton in Hy'. by subst.
  - apply NoDup_singleton.
Qed.

Lemma insert_row_wf (row : object) (db : Store.DB) (u : User.t) :
  Store.wf db → Store.insert_row row db = inr u →
  Store.wf (Store.with_users (Store.users db ++ [u])%list db).
Proof.
  intros [Hid Hg He]. unfold Store.insert_row.
  destruct (negb _); [done|].
  destruct (Store.text_cell (assoc "google_id" row)) as [[g|]|];
    destruct (Store.text_cell (assoc "email" row)) as [[e|]|]; try done.
  destruct (Store.text_cell (assoc "name" row)) as [n|]; try done.
  destruct (Store.text_cell (assoc "picture" row)) as [p|]; try done.
  destruct (Store.taken User.google_id g _) eqn:Htg; [done|].
  destruct (Store.taken User.email e _) eqn:Hte; [done|].
  intros [= <-]. cbn. split; cbn; apply NoDup_snoc; try done; cbn.
  - apply gen_random_uuid_fresh.
  - by apply taken_spec.
  - by apply taken_spec.
Qed.

Lemma insert_rows_wf (rows : list object) (db db' : Store.DB) (us : list User.t) :
  Store.wf db → Store.insert_rows rows db = inr (us, db') → Store.wf db'.
Proof.
  revert db us. induction rows as [|row rows IH]; intros db us Hwf; cbn.
  - by intros [= _ <-].
  - destruct (Store.insert_row row db) as [err|u] eqn:Hrow; [done|].
    destruct (Store.insert_rows rows _) as [err|[us' db'']] eqn:Hrest; [done|].
    intros [= _ <-]. eapply IH; [|exact Hrest]. by eapply insert_row_wf.
Qed.

Lemma set_column_keys (k : string) (v : value) (u u' : User.t) :
  Store.set_column k v u = Some u' →
  User.id u' = User.id u ∧ User.google_id u' = User.google_id u ∧
  User.email u' = User.email u.
Proof.
  unfold Store.set_column.
  repeat match goal with
         | |- context [if ?b then _ else _] => destruct b
         end; try done;
  match goal with
  | |- context [Store.text_cell ?x] => destruct (Store.text_cell x)
  | |- context [Store.bool_cell ?x] => destruct (Store.bool_cell x)
  end; cbn; try done; by intros [= <-].
Qed.

Lemma apply_patch_keys (patch : object) (u u' : User.t) :
  Store.apply_patch patch u = Some u' →
  User.id u' = User.id u ∧ User.google_id u' = User.google_id u ∧
  User.email u' = User.email u.
Proof.
  revert u. induction patch as [|[k v] patch IH]; intros u; cbn.
  - by intros [= <-].
  - destruct (Store.set_column k v u) as [u0|] eqn:Hk; [|done]. cbn. intros H.
    destruct (set_column_keys _ _ _ _ Hk) as (Hi & Hg & He).
    destruct (IH _ H) as (Hi' & Hg' & He'). repeat split; congruence.
Qed.

Lemma update_where_keys (column : string) (v : value) (patch : object)
    (us us' : list User.t) :
  Store.update_where column v patch us = Some us' →
  User.id <$> us' = User.id <$> us ∧
  User.google_id <$> us' = User.google_id <$> us ∧
  User.email <$> us' = User.email <$> us.
Proof.
  revert us'. induction us as [|u us IH]; intros us'; cbn.
  - by intros [= <-].
  - destruct (if Store.eq_filter column v u then _ else _) as [u0|] eqn:Hu; [|done].
    cbn. destruct (Store.update_where column v patch us) as [rest|]; [|done].
    cbn. intros [= <-]. destruct (IH rest eq_refl) as (Hi & Hg & He).
    assert (User.id u0 = User.id u ∧ User.google_id u0 = User.google_id u ∧
            User.email u0 = User.email u) as (Hi0 & Hg0 & He0).
    { destruct (Store.eq_filter column v u); [by eapply apply_patch_keys|].
      by injection Hu as <-. }
    rewrite !fmap_cons. by rewrite Hi, Hg, He, Hi0, Hg0, He0.
Qed.

(** Whatever is asked of it, the store keeps [id], [google_id] and
    [email] free of duplicates: there is at most one user per subject
    id. *)
Lemma perform_wf (q : Request) (db db' : Store.DB) (s : Settled) :
  Store.wf db → Store.perform q db = (s, db') → Store.wf db'.
Proof.
  intros Hwf. destruct q as [t c v|t rows|t patch c v]; cbn;
    destruct (negb _); try by intros [= _ <-].
  - destruct (Store.insert_rows rows db) as [err|[us db'']] eqn:Hrows.
    + by intros [= _ <-].
    + intros [= _ <-]. by eapply insert_rows_wf.
  - destruct (Store.update_where c v patch (Store.users db)) as [us|] eqn:Hup.
    + intros [= _ <-]. destruct (update_where_keys _ _ _ _ _ Hup) as (Hi & Hg & He).
      destruct Hwf as [Hid Hgid Hem]. split; cbn; congruence.
    + by intros [= _ <-].
Qed.

Lemma run_wf {A : Type} (m : Eff A) (db db' : Store.DB) (c : Completion A)
    (qs : list Request) :
  Store.wf db → run Store.perform m db = (c, db', qs) → Store.wf db'.
Proof.
  revert db c qs. induction m as [a|e|q k IH]; intros db c qs Hwf; cbn.
  - by intros [= _ <- _].
  - by intros [= _ <- _].
  - destruct (Store.perform q db) as [s db1] eqn:Hq.
    destruct (run Store.perform (k s) db1) as [[c' db2] qs'] eqn:Hk.
    intros [= _ <- _]. eapply IH; [|exact Hk]. by eapply perform_wf.
Qed.

Lemma sign_in_wf (profile : value) (now : string) (db db' : Store.DB)
    (a : Attempt) (qs : list Request) :
  Store.wf db → sign_in Store.perform profile now db = (a, db', qs) → Store.wf db'.
Proof.
  intros Hwf. unfold sign_in.
  destruct (run Store.perform (verify profile now) db) as [[c db1] qs1] eqn:Hrun.
  intros [= _ <- _]. by eapply run_wf.
Qed.

(** ** Store errors *)

Lemma sign_in_query {W : Type} (perform : Request → W → Settled * W)
    (profile : value) (now : string) (w : W) (g e n p : value) :
  read_profile profile = Return (g, e, n, p) →
  sign_in perform profile now w =
  let '(c, w', qs) :=
    run perform (Await (select_user g) (after_select g e n p now)) w in
  (Settles (verified match c with
                     | Returned d => d
                     | Uncaught x => Done (Some x) None
                     end), w', qs).
Proof.
  intros Hr. unfold sign_in, verify. rewrite run_try_catch.
  pose proof (verify_body_read profile now) as Hbody. rewrite Hr in Hbody.
  rewrite Hbody.
  destruct (run perform _ w) as [[[d|x] w'] qs]; reflexivity.
Qed.




(** The other two ways a store error reaches the callback and fails the
    sign-in: a rejected promise at any of the three awaits, and an error
    answer to the insert. *)
Lemma insert_error_fails (a : Assertion.t) (now : string) (e : PgError)
    (d : option object) :
  sign_in scripted (profile_of a) now
    [Fulfilled Store.no_single_row; Fulfilled {| data := d; error := Some e |}] =
  (Settles (Error (PostgrestError e)), [],
   [select_user (VStr (Assertion.subject_id a));
    insert_user (VStr (Assertion.subject_id a)) (VStr (Assertion.email a))
      (VStr (Assertion.display_name a))
      (from_option VStr VUndefined (Assertion.avatar_url a))]).
Proof. rewrite (sign_in_query _ _ _ _ _ _ _ _ (read_profile_of a)). reflexivity. Qed.

Lemma rejected_update_fails (a : Assertion.t) (now : string) (u : object) :
  principal (sign_in scripted (profile_of a) now
    [Fulfilled {| data := Some u; error := None |};
     Rejected (VStr "fetch failed")]).1.1 = None.
Proof. rewrite (sign_in_query _ _ _ _ _ _ _ _ (read_profile_of a)). reflexivity. Qed.

(** C3, at the failing step. When the store answers the [last_login]
    update with an error, the answer is never read: the callback calls
    [done(null, user)], passport succeeds and the principal is attached
    to the session. *)
Theorem update_error_ignored (a : Assertion.t) (now : string) (u : object)
    (e : PgError) :
  sign_in scripted (profile_of a) now
    [Fulfilled {| data := Some u; error := None |};
     Fulfilled {| data := None; error := Some e |}] =
  (Settles (Success (assoc_set "isNewUser" (VBool false) u)), [],
   [select_user (VStr (Assertion.subject_id a));
    update_last_login now (default VUndefined (assoc "id" u))]).
Proof. rewrite (sign_in_query _ _ _ _ _ _ _ _ (read_profile_of a)). reflexivity. Qed.

Example update_error_ignored_alice :
  principal (sign_in scripted (profile_of alice_again) "2024-01-02T10:00:00"
    [Fulfilled {| data := Some (to_object alice); error := None |};
     Fulfilled {| data := None; error := Some statement_timeout |}]).1.1 =
  Some (to_object alice ++ [("isNewUser", VBool false)])%list.
Proof. reflexivity. Qed.

(** On the table: a fault at the query or at the insert fails the
    sign-in and leaves the table as it was; a fault at the update leaves
    the table as it was, [last_login] unstamped, but the sign-in
    succeeds. *)
Example lost_update_signs_in :
  sign_in over_link (profile_of alice_again) "2024-01-02T10:00:00"
    (alice_db, [None; Some (ErrorAnswer fetch_failed)]) =
  (Settles (Success (to_object alice ++ [("isNewUser", VBool false)])%list),
   (alice_db, []),
   [select_user (VStr "g-0"); update_last_login "2024-01-02T10:00:00" (VStr "0")]).
Proof. reflexivity. Qed.

Example lost_insert_fails :
  sign_in over_link (profile_of bob) "2024-01-02T10:00:00"
    (alice_db, [None; Some (ErrorAnswer fetch_failed)]) =
  (Settles (Error (PostgrestError fetch_failed)), (alice_db, []),
   [select_user (VStr "g-1");
    insert_user (VStr "g-1") (VStr "b@x.com") (VStr "Bob")
      (VStr "https://lh3.example/bob.png")]).
Proof. reflexivity. Qed.

Example lost_query_fails :
  sign_in over_link (profile_of bob) "2024-01-02T10:00:00"
    (alice_db, [Some (Reject (VStr "socket hang up"))]) =
  (Settles (Error (Rejection (VStr "socket hang up"))), (alice_db, []),
   [select_user (VStr "g-1")]).
Proof. reflexivity. Qed.

(** ** The [isNewUser] flag *)

Lemma path_columns (now : string) (d : DoneCall) (qs : list Request) :
  path now d qs → Forall (fun q => "isNewUser" ∉ written_columns q) qs.
Proof. destruct 1; repeat constructor; cbn; not_in_columns. Qed.

Lemma path_flag (now : string) (d : DoneCall) (qs : list Request) :
  path now d qs →
  match d with
  | Done None (Some u) => assoc "isNewUser" u = Some (VBool (existsb is_insert qs))
  | Done (Some _) None => True
  | _ => False
  end.
Proof. destruct 1; cbn; try exact I; apply assoc_assoc_set. Qed.

(** C5. On every run of the callback, no request sent to the store
    writes a column [isNewUser]: the insert writes [google_id], [email],
    [name], [picture] and the update writes [last_login]. The flag is a
    property of the object handed to [done] only, and a record read back
    from the store does not carry it. *)
Theorem isNewUser_not_stored :
  (∀ (W : Type) (perform : Request → W → Settled * W) (profile : value)
     (now : string) (w : W),
     ∃ d w' qs,
       run perform (verify profile now) w = (Returned d, w', qs) ∧
       Forall (fun q => "isNewUser" ∉ written_columns q) qs ∧
       Forall (fun q => is_insert q = true →
                        written_columns q = ["google_id"; "email"; "name"; "picture"]) qs ∧
       Forall (fun q => is_update q = true → written_columns q = ["last_login"]) qs ∧
       match d with
       | Done None (Some u) => ∃ b, assoc "isNewUser" u = Some (VBool b)
       | _ => True
       end) ∧
  (∀ u : User.t, assoc "isNewUser" (to_object u) = None).
Proof.
  split; [|reflexivity]. intros W perform profile now w.
  destruct (verify_paths perform profile now w) as (d & w' & qs & Hrun & Hp).
  exists d, w', qs. split; [exact Hrun|]. split; [by eapply path_columns|].
  split; [|split].
  - destruct Hp; repeat constructor; cbn; discriminate.
  - destruct Hp; repeat constructor; cbn; discriminate.
  - pose proof (path_flag now d qs Hp) as Hf.
    destruct d as [[e|] [u|]]; eauto.
Qed.

(** ** The OAuth callback route *)

Lemma verified_created (u : object) : verified (Done None (Some u)) = Success u.
Proof. reflexivity. Qed.

(** C8. After a successful authentication the route redirects to
    [/dashboard?welcome=true] when the user object carries a truthy
    [isNewUser] and to [/dashboard] otherwise; when passport reports a
    failure (no user, no error) it redirects to [/]; an error handed to
    [done] is passed on to the error-handling middleware, which answers
    status 500 with a JSON body, not a redirect. On every run of the
    strategy the callback calls [done] once, and the answer follows that
    call: [done(null, user)] gives the dashboard redirect, with the
    welcome marker exactly when the callback sent the insert;
    [done(error, null)] gives the 500 answer for every TypeError, every
    error answer of the store and every rejection with a truthy reason,
    and the redirect to [/] only for a rejection with a falsy reason. *)
Theorem callback_redirects :
  (∀ u : object,
     auth_google_callback (Success u) =
     Respond (Redirect (if truthy (default VUndefined (assoc "isNewUser" u))
                        then "/dashboard?welcome=true" else "/dashboard"))) ∧
  auth_google_callback Fail = Respond (Redirect "/") ∧
  (∀ (e : exn) (otherwise : HttpResponse),
     respond (auth_google_callback (Error e)) otherwise = internal_server_error) ∧
  (∀ (W : Type) (perform : Request → W → Settled * W) (profile : value)
     (now : string) (w : W),
     ∃ d w' qs,
       run perform (verify profile now) w = (Returned d, w', qs) ∧
       sign_in perform profile now w = (Settles (verified d), w', qs) ∧
       match d with
       | Done None (Some u) =>
           auth_google_callback (verified d) =
           Respond (Redirect (if existsb is_insert qs
                              then "/dashboard?welcome=true" else "/dashboard"))
       | Done (Some e) None =>
           match e with
           | TypeError _ | PostgrestError _ =>
               ∀ otherwise,
                 respond (auth_google_callback (verified d)) otherwise =
                 internal_server_error
           | Rejection reason =>
               if truthy reason
               then ∀ otherwise,
                      respond (auth_google_callback (verified d)) otherwise =
                      internal_server_error
               else auth_google_callback (verified d) = Respond (Redirect "/")
           end
       | _ => False
       end).
Proof.
  split; [|split; [reflexivity|split; [reflexivity|]]].
  - intros u. unfold auth_google_callback, passport_authenticate.
    cbn [user lookup_prop]. by destruct (truthy _).
  - intros W perform profile now w. unfold sign_in.
    destruct (verify_paths perform profile now w) as (d & w' & qs & Hrun & Hp).
    exists d, w', qs. rewrite Hrun. split; [reflexivity|]. split; [reflexivity|].
    pose proof (path_flag now d qs Hp) as Hf.
    destruct d as [[e|] [u|]]; try contradiction.
    + destruct e as [msg|e|reason]; cbn [verified thrown_truthy]; try reflexivity.
      destruct (truthy reason); reflexivity.
    + cbn [verified]. unfold auth_google_callback, passport_authenticate.
      cbn [user lookup_prop]. rewrite Hf. cbn [default truthy].
      by destruct (existsb is_insert qs).
Qed.

(** C8, as stated, fails when Identity Upsert fails. The sign-in of a
    new subject id whose email is already held is refused by the store:
    no principal is established, and the route answers 500 with a JSON
    body where the specification has a redirect to [/]. *)
Lemma upsert_failure_not_redirected :
  let '(attempt, _, qs) :=
    sign_in Store.perform (profile_of same_email) "2024-01-02T10:00:00" alice_db in
  ∃ result,
    attempt = Settles result ∧
    principal attempt = None ∧
    specified_redirect attempt (existsb is_insert qs) = Redirect "/" ∧
    ∀ otherwise,
      respond (auth_google_callback result) otherwise = internal_server_error ∧
      respond (auth_google_callback result) otherwise ≠
      specified_redirect attempt (existsb is_insert qs).
Proof.
  cbn. eexists. split; [reflexivity|]. split; [reflexivity|]. split; [reflexivity|].
  intros otherwise. split; [reflexivity|discriminate].
Qed.

(** The same answer when the store times out on the first query and
    when the profile carries no email. *)
Example store_timeout_not_redirected :
  let '(attempt, _, _) :=
    sign_in scripted (profile_of alice_again) "2024-01-02T10:00:00"
      [Fulfilled {| data := None; error := Some statement_timeout |}] in
  ∃ result, attempt = Settles result ∧
            respond (auth_google_callback result) (Redirect "/") = internal_server_error.
Proof. cbn. eexists. split; reflexivity. Qed.

Example bad_profile_not_redirected :
  let '(attempt, _, _) :=
    sign_in Store.perform (VObj [("id", VStr "g-9"); ("emails", VArr [])])
      "2024-01-02T10:00:00" alice_db in
  ∃ result, attempt = Settles result ∧
            respond (auth_google_callback result) (Redirect "/") = internal_server_error.
Proof. cbn. eexists. split; reflexivity. Qed.

(** An error handed to [done] is neither: passport passes it on and the
    error middleware answers 500. *)
Lemma callback_error (e : exn) :
  respond (auth_google_callback (Error e)) (Redirect "/dashboard") =
  Json 500 [("error", VStr "Internal server error")].
Proof. reflexivity. Qed.

(** ** Totality of the callback *)

(** C10. For every store, profile value and clock reading the callback
    ends in one call of [done], either [done(null, user)] or
    [done(error, null)]; no exception escapes. An empty or absent
    [emails] list raises a TypeError that is caught and handed to
    [done] before any request is sent; an empty [photos] list raises
    nothing and leaves [picture] undefined in the insert. *)
Theorem verify_total :
  (∀ (W : Type) (perform : Request → W → Settled * W) (profile : value)
     (now : string) (w : W),
     ∃ d w' qs,
       run perform (verify profile now) w = (Returned d, w', qs) ∧
       ((∃ u, d = Done None (Some u)) ∨ (∃ e, d = Done (Some e) None))) ∧
  (∀ (W : Type) (perform : Request → W → Settled * W) (rest : object)
     (now : string) (w : W),
     run perform (verify (VObj (("emails", VArr []) :: rest)) now) w =
     (Returned (Done (Some (cannot_read "value")) None), w, [])) ∧
  (∀ (W : Type) (perform : Request → W → Settled * W) (g n : value)
     (now : string) (w : W),
     run perform (verify (VObj [("id", g); ("displayName", n)]) now) w =
     (Returned (Done (Some (cannot_read "0")) None), w, [])) ∧
  (∀ (g n em : value) (now : string) (s : Settled),
     (run scripted
        (verify (VObj [("id", g); ("displayName", n);
                       ("emails", VArr [VObj [("value", em)]]);
                       ("photos", VArr [])]) now)
        [Fulfilled Store.no_single_row; s]).2 =
     [select_user g; insert_user g em n VUndefined]).
Proof.
  split; [|split; [|split]].
  - intros W perform profile now w.
    destruct (verify_paths perform profile now w) as (d & w' & qs & Hrun & Hp).
    exists d, w', qs. split; [exact Hrun|]. by eapply path_done.
  - reflexivity.
  - reflexivity.
  - intros g n em now s. destruct s as [[d [e|]]|reason]; try destruct d; reflexivity.
Qed.

(** ** The authentication gate *)

(** Without a principal the gate redirects to the sign-in page; with one
    it calls [next()]. *)
Lemma isAuthenticated_gate (req : Req) :
  isAuthenticated req = if truthy (user req) then Next else Respond (Redirect "/").
Proof. reflexivity. Qed.

(** ** The admin gate *)

Lemma strict_eq_string_spec (v : value) (s : string) :
  strict_eq_string v s = true ↔ v = VStr s.
Proof.
  destruct v; cbn; try (split; [discriminate|intros [=]]).
  rewrite String.eqb_eq. split; [by intros ->|by intros [= ->]].
Qed.

Lemma truthy_lookup_prop (v : value) (k : string) :
  truthy v = true → is_Some (lookup_prop v k).
Proof. destruct v; cbn; try discriminate; eauto. Qed.

(** C7. The gate calls [next()] exactly when the request is
    authenticated and [req.user.email] is the string [ADMIN_EMAIL],
    compared with [===], hence character for character; every other
    request is answered with status 403 and the text
    "Access denied. Admin only.", never with a redirect. *)
Theorem isAdmin_admits_admin_only (env : option string) (req : Req) :
  (isAdmin env req = Next ↔
   req_isAuthenticated req = true ∧
   lookup_prop (user req) "email" = Some (VStr (ADMIN_EMAIL env))) ∧
  (isAdmin env req ≠ Next →
   isAdmin env req = Respond (Send 403 "Access denied. Admin only.")).
Proof.
  unfold isAdmin, req_isAuthenticated.
  destruct (truthy (user req)) eqn:Ht.
  - destruct (truthy_lookup_prop _ "email" Ht) as [email ->].
    destruct (strict_eq_string email (ADMIN_EMAIL env)) eqn:He.
    + apply strict_eq_string_spec in He as ->. split; [done|]. intros H. by destruct H.
    + split; [|done]. split; [discriminate|]. intros [_ [= ->]].
      assert (strict_eq_string (VStr (ADMIN_EMAIL env)) (ADMIN_EMAIL env) = true) as Hx
        by by apply strict_eq_string_spec.
      congruence.
  - split; [|done]. split; [discriminate|]. intros [[=] _].
Qed.

Lemma isAdmin_admits_admin_only_witness :
  isAdmin (Some "root@x.com") {| user := VObj [("email", VStr "Root@x.com")] |} =
  Respond (Send 403 "Access denied. Admin only.").
Proof.
  apply (isAdmin_admits_admin_only (Some "root@x.com")
           {| user := VObj [("email", VStr "Root@x.com")] |}).
  discriminate.
Defined.

Example isAdmin_admin :
  isAdmin (Some "root@x.com") {| user := VObj (to_object alice ++ [("email", VStr "root@x.com")]) |} =
  Respond access_denied ∧
  isAdmin (Some "a@x.com") {| user := VObj (to_object alice) |} = Next ∧
  isAdmin (Some "a@x.com") {| user := VUndefined |} = Respond access_denied ∧
  isAdmin None {| user := VObj [("email", VStr "your-email@gmail.com")] |} = Next.
Proof. repeat split. Qed.

(** ** Admin statistics *)

Lemma filter_length_count {A : Type} (p : A → bool) (l : list A) :
  length (List.filter p l) = count_if p l.
Proof.
  induction l as [|x l IH]; [reflexivity|]. cbn.
  destruct (p x); cbn; by rewrite IH.
Qed.

Lemma count_if_ext {A : Type} (p q : A → bool) (l : list A) :
  (∀ x, p x = q x) → count_if p l = count_if q l.
Proof.
  intros Hpq. induction l as [|x l IH]; [reflexivity|]. cbn.
  by rewrite Hpq, IH.
Qed.

Lemma today_is_local_midnight (tz now : Z) : local_midnight_of tz now (today tz now).
Proof.
  unfold local_midnight_of, today, ms_per_day.
  pose proof (Z.mod_pos_bound (now + tz) 86400000 ltac:(lia)) as Hb.
  split; [|lia].
  replace (now + tz - (now + tz) `mod` 86400000 - tz + tz)
    with (86400000 * ((now + tz) `div` 86400000)).
  - rewrite Z.mul_comm. apply Z.mod_mul. lia.
  - pose proof (Z.div_mod (now + tz) 86400000 ltac:(lia)). lia.
Qed.

Lemma local_midnight_unique (tz now m : Z) :
  local_midnight_of tz now m → m = today tz now.
Proof.
  unfold local_midnight_of, today, ms_per_day. intros [Hm Hn].
  apply Z.mod_divide in Hm as [q Hq]; [|lia].
  assert ((now + tz) `mod` 86400000 = now - m) as ->; [|lia].
  symmetry. apply (Z.mod_unique_pos _ _ q); lia.
Qed.

Lemma date_ge_on_or_after (Date_parse : string → option Z) (t : Z) (u : User.t) :
  date_ge (created Date_parse u) t = created_on_or_after Date_parse t u.
Proof.
  unfold date_ge, created_on_or_after. destruct (created Date_parse u) as [c|]; [|done].
  destruct (Z.leb_spec t c).
  - by rewrite bool_decide_eq_true_2.
  - rewrite bool_decide_eq_false_2; [done|lia].
Qed.

Lemma active_spec (u : User.t) : active u = bool_decide (User.is_active u = Some true).
Proof. unfold active. by destruct (User.is_active u) as [[]|]. Qed.

(** C9, as amended. The statistics are the number of records, the
    number with the active flag true, the number created on or after the
    local midnight that starts today, and the number created on or after
    seven days before that midnight. For users created ten days, two
    days and one hour before now they are newToday = 1, newThisWeek = 2
    and totalUsers = 3 provided now is at least one hour past local
    midnight. *)
Theorem admin_stats (Date_parse : string → option Z) (tz : Z)
    (users : list User.t) (now : Z) :
  local_midnight_of tz now (today tz now) ∧
  (∀ m : Z, local_midnight_of tz now m →
     stats Date_parse tz users now =
     {| totalUsers := length users;
        activeUsers := count_if (fun u => bool_decide (User.is_active u = Some true)) users;
        newToday := count_if (created_on_or_after Date_parse m) users;
        newThisWeek := count_if (created_on_or_after Date_parse (m - 7 * ms_per_day)) users |}) ∧
  (∀ u1 u2 u3 : User.t,
     sample_users Date_parse now u1 u2 u3 →
     ms_per_hour ≤ (now + tz) `mod` ms_per_day →
     sample_counts Date_parse tz now u1 u2 u3).
Proof.
  split; [apply today_is_local_midnight|]. split.
  - intros m Hm. apply local_midnight_unique in Hm as ->.
    unfold stats, weekAgo. rewrite !filter_length_count. f_equal.
    + apply count_if_ext, active_spec.
    + apply count_if_ext. intros u. apply date_ge_on_or_after.
    + apply count_if_ext. intros u. apply date_ge_on_or_after.
  - intros u1 u2 u3 (H1 & H2 & H3) Hnow. unfold sample_counts. cbn.
    rewrite H1, H2, H3. unfold date_ge, weekAgo, today, ms_per_day, ms_per_hour in *.
    pose proof (Z.mod_pos_bound (now + tz) 86400000 ltac:(lia)) as Hb.
    repeat match goal with
           | |- context [?a <=? ?b] => destruct (Z.leb_spec a b); try lia
           end.
    done.
Qed.

Lemma admin_stats_witness :
  sample_counts (iso_local 0) 0 1705320000000
    (joined "c" "2024-01-15T11:00:00") (joined "b" "2024-01-13T12:00:00")
    (joined "a" "2024-01-05T12:00:00").
Proof.
  apply (proj2 (proj2 (admin_stats (iso_local 0) 0 [] 1705320000000))).
  - repeat split.
  - vm_compute. discriminate.
Defined.

(** C9, as stated, fails in the first hour after local midnight: the
    user created one hour ago was created yesterday. At 00:30 on
    2024-01-15 the sample gives newToday = 0. *)
Lemma sample_counts_after_midnight :
  sample_users (iso_local 0) 1705278600000
    (joined "c" "2024-01-14T23:30:00") (joined "b" "2024-01-13T00:30:00")
    (joined "a" "2024-01-05T00:30:00") ∧
  ¬ sample_counts (iso_local 0) 0 1705278600000
      (joined "c" "2024-01-14T23:30:00") (joined "b" "2024-01-13T00:30:00")
      (joined "a" "2024-01-05T00:30:00").
Proof.
  split; [repeat split|].
  intros H. vm_compute in H. destruct H as [H _]. discriminate H.
Qed.

Example stats_after_midnight :
  stats (iso_local 0) 0
    [joined "c" "2024-01-14T23:30:00"; joined "b" "2024-01-13T00:30:00";
     joined "a" "2024-01-05T00:30:00"] 1705278600000 =
  {| totalUsers := 3; activeUsers := 3; newToday := 0; newThisWeek := 2 |}.
Proof. reflexivity. Qed.

(** ** Schema scripts *)

Module DdlFacts.
Import Ddl.

Lemma exec_stmt_frame (st : Stmt) (s s' : gmap string Table) (k : string) :
  exec_stmt st s = Ok s' → k ≠ target st → s' !! k = s !! k.
Proof.
  destruct st as [ie t c|ine t cols|ine i t c|t cols]; cbn; intros H Hk.
  - destruct (s !! t); [|destruct ie]; inversion H; subst; try done.
    by rewrite lookup_delete_ne.
  - destruct (name_taken t s); [destruct ine; by inversion H|].
    destruct (negb _); [done|]. destruct (first_bad_fk _ _ _ _); [done|].
    inversion H; subst. by rewrite lookup_insert_ne.
  - destruct (name_taken i s); [destruct ine; by inversion H|].
    destruct (s !! t) as [tb|]; [|done].
    destruct (has_column _ _); [|done]. inversion H; subst.
    by rewrite lookup_insert_ne.
  - destruct (s !! t) as [tb|]; [|done].
    destruct (add_columns _ _ _ _); [done|]. inversion H; subst.
    by rewrite lookup_insert_ne.
Qed.

Lemma exec_batch_frame (p : list Stmt) (s s' : gmap string Table) (k : string) :
  exec_batch p s = Ok s' → Forall (fun st => k ≠ target st) p → s' !! k = s !! k.
Proof.
  revert s. induction p as [|st p IH]; intros s H Hk; cbn in H.
  - by inversion H.
  - apply Forall_cons in Hk as [Hst Hk].
    destruct (exec_stmt st s) as [s0|e] eqn:Hs; [|done].
    rewrite (IH s0 H Hk). by eapply exec_stmt_frame.
Qed.

Lemma drop_if_exists (t : string) (c : bool) (s : gmap string Table) :
  exec_stmt (DropTable true t c) s = Ok (delete t s).
Proof.
  cbn. destruct (s !! t) eqn:Ht; [done|]. by rewrite delete_id.
Qed.

(** A script that first drops, with IF EXISTS, every table it then
    writes to leaves the same schema each time it succeeds. *)
Lemma reset_rerun (t1 t2 : string) (body : list Stmt) (s s1 : gmap string Table) :
  Forall (fun st => target st = t1 ∨ target st = t2) body →
  exec_batch (DropTable true t1 true :: DropTable true t2 true :: body) s = Ok s1 →
  exec_batch (DropTable true t1 true :: DropTable true t2 true :: body) s1 = Ok s1.
Proof.
  intros Hbody. cbn [exec_batch]. rewrite !drop_if_exists. intros Hrun.
  replace (delete t2 (delete t1 s1)) with (delete t2 (delete t1 s)); [done|].
  apply map_eq. intros k.
  destruct (decide (k = t2)) as [->|H2]; [by rewrite !lookup_delete_eq|].
  rewrite !(lookup_delete_ne _ t2) by done.
  destruct (decide (k = t1)) as [->|H1]; [by rewrite !lookup_delete_eq|].
  rewrite !(lookup_delete_ne _ t1) by done.
  rewrite (exec_batch_frame body _ s1 k Hrun).
  - rewrite lookup_delete_ne by done. by rewrite lookup_delete_ne.
  - eapply Forall_impl; [exact Hbody|]. intros st [->| ->]; done.
Qed.

(** Names stay taken when a fresh table is added. *)
Lemma name_taken_insert (n t : string) (tb : Table) (s : gmap string Table) :
  s !! t = None → name_taken n s = true → name_taken n (<[t := tb]> s) = true.
Proof.
  unfold name_taken, index_taken. intros Ht Hn.
  apply orb_true_iff in Hn as [Hn|Hn]; apply orb_true_iff.
  - left. apply bool_decide_eq_true in Hn. apply bool_decide_eq_true.
    destruct (decide (t = n)) as [->|Hne].
    + rewrite lookup_insert_eq. eauto.
    + by rewrite lookup_insert_ne.
  - right. apply bool_decide_eq_true in Hn. apply bool_decide_eq_true.
    destruct Hn as (k & x & Hk & Hx). exists k, x. split; [|done].
    rewrite lookup_insert_ne; [done|]. intros ->. congruence.
Qed.

Lemma name_taken_table (t : string) (tb : Table) (s : gmap string Table) :
  s !! t = Some tb → name_taken t s = true.
Proof.
  intros Ht. unfold name_taken. apply orb_true_iff. left.
  apply bool_decide_eq_true. eauto.
Qed.

Lemma name_not_taken (t : string) (s : gmap string Table) :
  name_taken t s = false → s !! t = None.
Proof.
  unfold name_taken. intros H. apply orb_false_iff in H as [H _].
  apply bool_decide_eq_false in H. by apply eq_None_not_Some.
Qed.

Lemma guarded_create_taken (st : Stmt) (s s' : gmap string Table) :
  guarded_create st → exec_stmt st s = Ok s' →
  name_taken (target st) s' = true ∧
  ∀ n, name_taken n s = true → name_taken n s' = true.
Proof.
  intros (t & cols & ->). cbn.
  destruct (name_taken t s) eqn:Ht; [intros [= <-]; done|].
  destruct (negb _); [done|]. destruct (first_bad_fk _ _ _ _); [done|].
  intros [= <-]. split.
  - eapply name_taken_table, lookup_insert_eq.
  - intros n. by apply name_taken_insert, name_not_taken.
Qed.

Lemma guarded_creates_taken (p : list Stmt) (s s' : gmap string Table) :
  Forall guarded_create p → exec_batch p s = Ok s' →
  Forall (fun st => name_taken (target st) s' = true) p ∧
  ∀ n, name_taken n s = true → name_taken n s' = true.
Proof.
  revert s. induction p as [|st p IH]; intros s Hp Hrun; cbn in Hrun.
  - injection Hrun as <-. by split.
  - apply Forall_cons in Hp as [Hst Hp].
    destruct (exec_stmt st s) as [s0|e] eqn:Hs; [|done].
    destruct (guarded_create_taken st s s0 Hst Hs) as [Ht Hmono].
    destruct (IH s0 Hp Hrun) as [Hall Hmono'].
    split; [|by eauto]. constructor; eauto.
Qed.

Lemma guarded_creates_skip (p : list Stmt) (s : gmap string Table) :
  Forall guarded_create p →
  Forall (fun st => name_taken (target st) s = true) p →
  exec_batch p s = Ok s.
Proof.
  induction p as [|st p IH]; intros Hp Ht; [done|].
  apply Forall_cons in Hp as [(t & cols & ->) Hp].
  apply Forall_cons in Ht as [Hst Ht]. cbn in Hst |- *.
  rewrite Hst. by apply IH.
Qed.

(** A batch of CREATE TABLE IF NOT EXISTS statements that succeeded
    does nothing when run again. *)
Lemma guarded_creates_rerun (p : list Stmt) (s s1 : gmap string Table) :
  Forall guarded_create p → exec_batch p s = Ok s1 → exec_batch p s1 = Ok s1.
Proof.
  intros Hp Hrun. apply guarded_creates_skip; [done|].
  by destruct (guarded_creates_taken p s s1 Hp Hrun).
Qed.

Lemma has_column_app (c : string) (cols more : list Column) :
  has_column c cols = true → has_column c (cols ++ more) = true.
Proof.
  unfold has_column. rewrite existsb_app. intros ->. done.
Qed.

Lemma has_column_last (c : Column) (cols : list Column) :
  has_column (name c) (cols ++ [c]) = true.
Proof.
  unfold has_column. rewrite existsb_app. cbn.
  by rewrite String.eqb_refl, orb_true_r.
Qed.

Lemma add_columns_present (t : string) (s : gmap string Table)
    (cols : list (bool * Column)) (tb tb' : Table) :
  add_columns t s cols tb = inr tb' →
  (∀ c, has_column c (columns tb) = true → has_column c (columns tb') = true) ∧
  Forall (fun c => has_column (name c.2) (columns tb') = true) cols.
Proof.
  revert tb. induction cols as [|[g c] cols IH]; intros tb H; cbn in H.
  - injection H as <-. by split.
  - destruct (has_column (name c) (columns tb)) eqn:Hc.
    + destruct g; [|done]. destruct (IH tb H) as [Hmono Hall].
      split; [done|]. constructor; [by apply Hmono|done].
    + destruct (negb _); [done|]. destruct (IH _ H) as [Hmono Hall]. cbn in Hmono.
      split.
      * intros c' Hc'. by apply Hmono, has_column_app.
      * constructor; [|done]. apply Hmono, has_column_last.
Qed.

Lemma add_columns_skip (t : string) (s : gmap string Table)
    (cols : list (bool * Column)) (tb : Table) :
  forallb fst cols = true →
  Forall (fun c => has_column (name c.2) (columns tb) = true) cols →
  add_columns t s cols tb = inr tb.
Proof.
  induction cols as [|[g c] cols IH]; intros Hg Hall; [done|].
  cbn in Hg. apply andb_true_iff in Hg as [-> Hg].
  apply Forall_cons in Hall as [Hc Hall]. cbn in Hc |- *.
  rewrite Hc. by apply IH.
Qed.

(** An ALTER TABLE whose actions are all ADD COLUMN IF NOT EXISTS and
    that succeeded does nothing when run again. *)
Lemma guarded_alter_rerun (t : string) (cols : list (bool * Column))
    (s s1 : gmap string Table) :
  forallb fst cols = true →
  exec_batch [AlterTableAdd t cols] s = Ok s1 →
  exec_batch [AlterTableAdd t cols] s1 = Ok s1.
Proof.
  intros Hg. cbn. destruct (s !! t) as [tb|] eqn:Ht; [|done].
  destruct (add_columns t s cols tb) as [e|tb'] eqn:Hadd; [done|].
  intros [= <-]. rewrite lookup_insert_eq.
  destruct (add_columns_present t s cols tb tb' Hadd) as [_ Hall].
  rewrite (add_columns_skip t _ cols tb' Hg Hall).
  by rewrite insert_insert_eq.
Qed.

End DdlFacts.

(** C4, as amended. Each schema script that ran without error runs
    without error when run again at once and leaves the schema exactly
    as the first run left it, so no table, column or index is added
    twice. [createTables] and the column migration guard every statement
    with IF NOT EXISTS and change nothing that is already there;
    [setupTables] guards only its two DROP TABLE statements and creates
    its tables and indexes unguarded, so its second run drops and
    re-creates them. *)
Theorem scripts_rerun (s s1 : gmap string Ddl.Table) :
  (Ddl.exec_batch Ddl.createTables s = Ddl.Ok s1 →
   Ddl.exec_batch Ddl.createTables s1 = Ddl.Ok s1) ∧
  (Ddl.exec_batch Ddl.setupTables s = Ddl.Ok s1 →
   Ddl.exec_batch Ddl.setupTables s1 = Ddl.Ok s1) ∧
  (Ddl.exec_batch Ddl.addOAuthTokenColumns s = Ddl.Ok s1 →
   Ddl.exec_batch Ddl.addOAuthTokenColumns s1 = Ddl.Ok s1) ∧
  forallb Ddl.guarded Ddl.createTables = true ∧
  forallb Ddl.guarded Ddl.addOAuthTokenColumns = true ∧
  List.filter Ddl.guarded Ddl.setupTables =
    [Ddl.DropTable true "sessions" true; Ddl.DropTable true "users" true].
Proof.
  split; [|split; [|split; [|by repeat split]]].
  - apply DdlFacts.guarded_creates_rerun.
    repeat constructor; unfold Ddl.guarded_create; eauto.
  - apply DdlFacts.reset_rerun.
    repeat first [apply Forall_nil | apply Forall_cons; split]; cbn; auto.
  - by apply DdlFacts.guarded_alter_rerun.
Qed.

Lemma scripts_rerun_witness :
  Ddl.exec_batch Ddl.setupTables (Ddl.run_script Ddl.setupTables ∅) =
  Ddl.Ok (Ddl.run_script Ddl.setupTables ∅).
Proof.
  apply (proj1 (proj2 (scripts_rerun ∅ (Ddl.run_script Ddl.setupTables ∅)))).
  vm_compute. reflexivity.
Defined.

(** C4, as stated, fails: not every statement the scripts issue carries
    a guard. *)
Lemma setupTables_unguarded :
  ¬ ∀ p st, p ∈ Ddl.scripts → st ∈ p → Ddl.guarded st = true.
Proof.
  intros H.
  specialize (H Ddl.setupTables (Ddl.CreateTable false "users" Ddl.users_columns)).
  discriminate H.
  - apply list_elem_of_lookup. by exists 1%nat.
  - apply list_elem_of_lookup. by exists 2%nat.
Qed.

(** Nor is the second run of [setupTables] a no-op on what is already
    there: records that arrived in between are gone. *)
Example setupTables_drops_rows :
  let s1 := Ddl.run_script Ddl.setupTables ∅ in
  Ddl.rows <$> (Ddl.with_rows "users" 1 s1 !! "users") = Some 1%nat ∧
  Ddl.rows <$> (Ddl.run_script Ddl.setupTables (Ddl.with_rows "users" 1 s1) !! "users") = Some 0%nat ∧
  Ddl.rows <$> (Ddl.run_script Ddl.createTables (Ddl.with_rows "users" 1 s1) !! "users") = Some 1%nat.
Proof. vm_compute. done. Qed.

(** On an empty database each script in turn runs without error, twice. *)
Example scripts_from_scratch :
  let s1 := Ddl.run_script Ddl.createTables ∅ in
  let s2 := Ddl.run_script Ddl.addOAuthTokenColumns s1 in
  Ddl.exec_batch Ddl.createTables ∅ = Ddl.Ok s1 ∧
  Ddl.exec_batch Ddl.createTables s1 = Ddl.Ok s1 ∧
  Ddl.exec_batch Ddl.addOAuthTokenColumns s1 = Ddl.Ok s2 ∧
  Ddl.exec_batch Ddl.addOAuthTokenColumns s2 = Ddl.Ok s2.
Proof. vm_compute. done. Qed.

(** * Further properties *)

(** ** The two revisions of the callback *)

Lemma run_upsert_v1 {W : Type} (perform : Request → W → Settled * W)
    (g e n p : value) (now : string) (w : W) :
  let v1 := run perform (upsert_v1 g e n p now) w in
  let v2 := run perform (Await (select_user g) (after_select g e n p now)) w in
  v1.1.2 = v2.1.2 ∧ v1.2 = v2.2 ∧
  match v1.1.1, v2.1.1 with
  | Returned d, Returned d' => d' = flagged v1.2 d
  | Uncaught x, Uncaught x' => x' = x
  | Returned (Done None None), Uncaught x' => x' = cannot_set "isNewUser"
  | _, _ => False
  end.
Proof.
  unfold upsert_v1. cbn.
  destruct (perform (select_user g) w) as [[[d [err|]]|reason] w1]; cbn.
  - destruct (String.eqb (code err) "PGRST116"); cbn; [|done].
    destruct d as [u|]; cbn.
    + destruct (perform _ w1) as [[r|reason] w2]; done.
    + destruct (perform _ w1) as [[[d' [err'|]]|reason] w2]; cbn; try done.
      destruct d'; done.
  - destruct d as [u|]; cbn.
    + destruct (perform _ w1) as [[r|reason] w2]; done.
    + destruct (perform _ w1) as [[[d' [err'|]]|reason] w2]; cbn; try done.
      destruct d'; done.
  - done.
Qed.

Lemma verify_body_v1_read (profile : value) (now : string) :
  match read_profile profile with
  | Return (g, e, n, p) => verify_body_v1 profile now = upsert_v1 g e n p now
  | Throw x => verify_body_v1 profile now = Throw x
  | Await _ _ => False
  end.
Proof.
  unfold read_profile, verify_body_v1, upsert_v1, get_prop, get_index, get_prop_opt, get_prop.
  destruct (lookup_prop profile "id") as [g|]; cbn; [|reflexivity].
  destruct (lookup_prop profile "emails") as [es|]; cbn; [|reflexivity].
  destruct (lookup_index es 0) as [e0|]; cbn; [|reflexivity].
  destruct (lookup_prop e0 "value") as [e|]; cbn; [|reflexivity].
  destruct (lookup_prop profile "displayName") as [n|]; cbn; [|reflexivity].
  destruct (lookup_prop profile "photos") as [ps|]; cbn; [|reflexivity].
  destruct (lookup_index ps 0) as [p0|]; cbn; [|reflexivity].
  destruct p0; reflexivity.
Qed.

(** X1. The later revision of the callback sends the same requests to
    the store as the first and leaves the store in the same state. Its
    [done] call is the first revision's with the flag added to the user:
    [isNewUser] is true exactly when the insert was sent. The one
    difference in outcome: where the first revision calls
    [done(null, null)] (the insert answered with neither row nor error),
    the later one fails on setting the flag and calls
    [done(TypeError, null)]. *)
Theorem verify_adds_flag {W : Type} (perform : Request → W → Settled * W)
    (profile : value) (now : string) (w : W) :
  ∃ d w' qs,
    run perform (verify_v1 profile now) w = (Returned d, w', qs) ∧
    run perform (verify profile now) w = (Returned (flagged qs d), w', qs).
Proof.
  unfold verify_v1, verify. rewrite !run_try_catch.
  pose proof (verify_body_read profile now) as H2.
  pose proof (verify_body_v1_read profile now) as H1.
  destruct (read_profile_pure profile) as [(g & e & n & p & Hr)|(msg & Hr)];
    rewrite Hr in H1, H2.
  - rewrite H1, H2.
    pose proof (run_upsert_v1 perform g e n p now w) as Hrel. cbn zeta in Hrel.
    destruct (run perform (upsert_v1 g e n p now) w) as [[c1 w1] qs1].
    destruct (run perform (Await _ _) w) as [[c2 w2] qs2].
    cbn in Hrel. destruct Hrel as (<- & <- & Hc).
    destruct c1 as [[[x|] [u|]]|x], c2 as [d'|x']; try done; subst;
      do 3 eexists; split; reflexivity.
  - rewrite H1, H2. cbn. do 3 eexists. split; reflexivity.
Qed.

(** ** Sign-ins on the [users] table *)

(** The store ends where the requests sent lead it. *)
Lemma run_replay {A W : Type} (perform : Request → W → Settled * W)
    (m : Eff A) (w : W) :
  (run perform m w).1.2 = foldl (fun w q => (perform q w).2) w (run perform m w).2.
Proof.
  revert w. induction m as [a|e|q k IH]; intros w; cbn; try reflexivity.
  destruct (perform q w) as [s w1] eqn:Hq. specialize (IH s w1).
  destruct (run perform (k s) w1) as [[c w2] qs]. cbn in *. by rewrite Hq.
Qed.

Lemma only_last_login_differs_refl (u : User.t) : only_last_login_differs u u.
Proof. by repeat split. Qed.

Lemma keeps_records_refl (db : Store.DB) : keeps_records db db.
Proof.
  exists (Store.users db), []. rewrite app_nil_r. split; [done|]. split; [|cbn; lia].
  apply Forall2_same_length_lookup. split; [done|].
  intros i u u' H1 H2. rewrite H1 in H2. injection H2 as <-.
  apply only_last_login_differs_refl.
Qed.

Lemma perform_select_same (g : value) (db : Store.DB) :
  (Store.perform (select_user g) db).2 = db.
Proof. reflexivity. Qed.

Lemma perform_insert_adds (g e n p : value) (db : Store.DB) :
  let db' := (Store.perform (insert_user g e n p) db).2 in
  db' = db ∨ ∃ u, Store.users db' = (Store.users db ++ [u])%list.
Proof.
  cbn -[Store.insert_row].
  match goal with
  | |- context [Store.insert_row ?row db] =>
      destruct (Store.insert_row row db) as [err|u]
  end; cbn; [by left|].
  right. by exists u.
Qed.

Lemma stamp_differs (column now : string) (v : value) (us us' : list User.t) :
  Store.update_where column v [("last_login", VStr now)] us = Some us' →
  Forall2 only_last_login_differs us us'.
Proof.
  revert us'. induction us as [|u us IH]; intros us'; cbn.
  - intros [= <-]. constructor.
  - destruct (Store.eq_filter column v u); cbn;
      (destruct (Store.update_where column v _ us) as [rest|]; [|done]);
      cbn; intros [= <-]; (constructor; [|by apply IH]).
    + by repeat split.
    + apply only_last_login_differs_refl.
Qed.

Lemma perform_update_stamps (now : string) (id : value) (db : Store.DB) :
  Forall2 only_last_login_differs (Store.users db)
    (Store.users (Store.perform (update_last_login now id) db).2).
Proof.
  cbn. destruct (Store.update_where "id" id _ (Store.users db)) as [us|] eqn:Hup; cbn.
  - by eapply stamp_differs.
  - apply Forall2_same_length_lookup. split; [done|].
    intros i u u' H1 H2. rewrite H1 in H2. injection H2 as <-.
    apply only_last_login_differs_refl.
Qed.

(** X2. Whatever the profile, a run of the callback against the store
    deletes no record, changes no field of an existing record other than
    [last_login], and adds at most one record. *)
Theorem sign_in_keeps_records (profile : value) (now : string) (db db' : Store.DB)
    (a : Attempt) (qs : list Request) :
  sign_in Store.perform profile now db = (a, db', qs) →
  keeps_records db db'.
Proof.
  unfold sign_in. intros Hrun.
  destruct (verify_paths Store.perform profile now db) as (d & w' & qs' & Hv & Hp).
  pose proof (run_replay Store.perform (verify profile now) db) as Hreplay.
  rewrite Hv in Hrun, Hreplay. injection Hrun as _ <- _. cbn in Hreplay. subst w'.
  destruct Hp; cbn [foldl]; rewrite ?perform_select_same.
  - apply keeps_records_refl.
  - apply keeps_records_refl.
  - destruct (perform_insert_adds g e n p db) as [->|[u Hu]];
      [apply keeps_records_refl|].
    exists (Store.users db), [u]. split; [done|]. split; [|done].
    apply Forall2_same_length_lookup. split; [done|].
    intros i x x' H1 H2. rewrite H1 in H2. injection H2 as <-.
    apply only_last_login_differs_refl.
  - destruct (perform_insert_adds g e n p db) as [->|[u Hu]];
      [apply keeps_records_refl|].
    exists (Store.users db), [u]. split; [done|]. split; [|done].
    apply Forall2_same_length_lookup. split; [done|].
    intros i x x' H1 H2. rewrite H1 in H2. injection H2 as <-.
    apply only_last_login_differs_refl.
  - exists (Store.users (Store.perform
              (update_last_login now (default VUndefined (assoc "id" u))) db).2), [].
    rewrite app_nil_r. split; [done|]. split; [|cbn; lia].
    apply perform_update_stamps.
  - exists (Store.users (Store.perform
              (update_last_login now (default VUndefined (assoc "id" u))) db).2), [].
    rewrite app_nil_r. split; [done|]. split; [|cbn; lia].
    apply perform_update_stamps.
Qed.

Lemma sign_in_keeps_records_witness :
  keeps_records alice_db
    (sign_in Store.perform (profile_of bob) "2024-01-02T10:00:00" alice_db).1.2.
Proof.
  eapply (sign_in_keeps_records (profile_of bob) "2024-01-02T10:00:00" alice_db).
  reflexivity.
Defined.

(** X3. Two sign-ins in a row of an identity new to the store: the
    first creates the record and is redirected to the welcome page, the
    second is redirected to the plain dashboard and changes nothing but
    [last_login], and that even when the provider now asserts another
    email, name or photo for the same subject id: the record keeps what
    the first sign-in stored. *)
Theorem second_login_keeps_profile (db : Store.DB) (a a' : Assertion.t)
    (now1 now2 : string) :
  Store.wf db →
  Assertion.subject_id a ∉ User.google_id <$> Store.users db →
  Assertion.email a ∉ User.email <$> Store.users db →
  Assertion.subject_id a' = Assertion.subject_id a →
  let first := sign_in Store.perform (profile_of a) now1 db in
  let second := sign_in Store.perform (profile_of a') now2 first.1.2 in
  redirect_of first.1.1 = Some "/dashboard?welcome=true" ∧
  redirect_of second.1.1 = Some "/dashboard" ∧
  Store.users second.1.2 =
    (Store.users db ++ [User.with_last_login (Some now2) (new_user a db)])%list.
Proof.
  intros Hwf Hg He Hsub. cbn zeta.
  rewrite (first_login_run db a now1 Hg He). cbn [fst snd].
  assert (Store.wf (Store.with_users (Store.users db ++ [new_user a db])%list db)) as Hwf1.
  { eapply (sign_in_wf (profile_of a) now1 db); [exact Hwf|].
    apply (first_login_run db a now1 Hg He). }
  rewrite (returning_login_run _ a' now2 (new_user a db) (Store.users db) [] Hwf1
             eq_refl (eq_sym Hsub)).
  done.
Qed.

Lemma second_login_keeps_profile_witness :
  let first := sign_in Store.perform (profile_of bob) "2024-01-02T10:00:00" alice_db in
  let second :=
    sign_in Store.perform
      (profile_of (Assertion.mk "g-1" "robert@x.com" "Robert" None))
      "2024-01-03T10:00:00" first.1.2 in
  redirect_of first.1.1 = Some "/dashboard?welcome=true" ∧
  redirect_of second.1.1 = Some "/dashboard" ∧
  Store.users second.1.2 =
    (Store.users alice_db ++
     [User.with_last_login (Some "2024-01-03T10:00:00") (new_user bob alice_db)])%list.
Proof.
  apply (second_login_keeps_profile alice_db bob
           (Assertion.mk "g-1" "robert@x.com" "Robert" None)).
  - split; apply NoDup_singleton.
  - intros H. apply list_elem_of_singleton in H. discriminate H.
  - intros H. apply list_elem_of_singleton in H. discriminate H.
  - reflexivity.
Defined.

(** ** More on the admin statistics *)

Lemma count_if_le {A : Type} (p q : A → bool) (l : list A) :
  (∀ x, p x = true → q x = true) → (count_if p l ≤ count_if q l)%nat.
Proof.
  intros Hpq. induction l as [|x l IH]; cbn; [lia|].
  destruct (p x) eqn:Hp; [rewrite (Hpq x Hp); lia|].
  destruct (q x); lia.
Qed.

Lemma count_if_length {A : Type} (p : A → bool) (l : list A) :
  (count_if p l ≤ length l)%nat.
Proof. induction l as [|x l IH]; cbn; [lia|]. destruct (p x); lia. Qed.

Lemma count_if_perm {A : Type} (p : A → bool) (l1 l2 : list A) :
  l1 ≡ₚ l2 → count_if p l1 = count_if p l2.
Proof.
  induction 1 as [|x l1 l2 _ IH|x y l|l1 l2 l3 _ IH1 _ IH2]; cbn.
  - done.
  - by rewrite IH.
  - by destruct (p x), (p y).
  - congruence.
Qed.

Lemma count_if_app {A : Type} (p : A → bool) (l1 l2 : list A) :
  count_if p (l1 ++ l2) = (count_if p l1 + count_if p l2)%nat.
Proof.
  induction l1 as [|x l1 IH]; cbn; [done|]. rewrite IH. destruct (p x); lia.
Qed.

Lemma date_ge_mono (d : option Z) (t t' : Z) :
  t' ≤ t → date_ge d t = true → date_ge d t' = true.
Proof.
  destruct d as [x|]; cbn; [|done]. intros Ht Hx.
  apply Z.leb_le in Hx. apply Z.leb_le. lia.
Qed.

(** X4. For every list of users and every instant the statistics are
    ordered: newToday ≤ newThisWeek ≤ totalUsers and
    activeUsers ≤ totalUsers. *)
Theorem stats_ordered (Date_parse : string → option Z) (tz : Z)
    (users : list User.t) (now : Z) :
  let s := stats Date_parse tz users now in
  (newToday s ≤ newThisWeek s)%nat ∧
  (newThisWeek s ≤ totalUsers s)%nat ∧
  (activeUsers s ≤ totalUsers s)%nat.
Proof.
  cbn. rewrite !filter_length_count. split; [|split].
  - apply count_if_le. intros u. apply date_ge_mono.
    unfold weekAgo, ms_per_day. lia.
  - apply count_if_length.
  - apply count_if_length.
Qed.

(** X5. The statistics do not depend on the order in which the store
    returns the users, and those of two lists put together are the sums
    of theirs. *)
Theorem stats_order_free (Date_parse : string → option Z) (tz : Z)
    (users users' : list User.t) (now : Z) :
  (users ≡ₚ users' →
   stats Date_parse tz users now = stats Date_parse tz users' now) ∧
  stats Date_parse tz (users ++ users') now =
  {| totalUsers := totalUsers (stats Date_parse tz users now) +
                   totalUsers (stats Date_parse tz users' now);
     activeUsers := activeUsers (stats Date_parse tz users now) +
                    activeUsers (stats Date_parse tz users' now);
     newToday := newToday (stats Date_parse tz users now) +
                 newToday (stats Date_parse tz users' now);
     newThisWeek := newThisWeek (stats Date_parse tz users now) +
                    newThisWeek (stats Date_parse tz users' now) |}.
Proof.
  split.
  - intros Hp. unfold stats. rewrite !filter_length_count.
    f_equal; try by apply count_if_perm. by apply Permutation_length.
  - unfold stats. cbn. rewrite !filter_length_count, !count_if_app, length_app.
    done.
Qed.

Lemma stats_order_free_witness :
  stats (iso_local 0) 0
    [joined "a" "2024-01-05T12:00:00"; joined "c" "2024-01-15T11:00:00"] 1705320000000 =
  stats (iso_local 0) 0
    [joined "c" "2024-01-15T11:00:00"; joined "a" "2024-01-05T12:00:00"] 1705320000000.
Proof.
  apply (stats_order_free (iso_local 0) 0
           [joined "a" "2024-01-05T12:00:00"; joined "c" "2024-01-15T11:00:00"]
           [joined "c" "2024-01-15T11:00:00"; joined "a" "2024-01-05T12:00:00"]).
  apply perm_swap.
Defined.

(** X6. Every user counted in newToday is shown with the New badge of
    the admin table whenever the table is rendered less than 24 hours
    after the midnight from which newToday counts; newToday is then at
    most the number of badges. The converse fails: a user created half
    an hour before that midnight carries the badge half an hour after
    it and is not counted. *)
Theorem new_today_has_badge :
  (∀ (Date_parse : string → option Z) (tz : Z) (users : list User.t) (now now' : Z),
     now' - today tz now < ms_per_day →
     (∀ u, date_ge (created Date_parse u) (today tz now) = true →
           isNew Date_parse now' u = true) ∧
     (newToday (stats Date_parse tz users now) ≤
      length (List.filter (isNew Date_parse now') users))%nat) ∧
  (let late := joined "c" "2024-01-14T23:30:00" in
   let now := 1705278600000 in
   now + 1 - today 0 now < ms_per_day ∧
   isNew (iso_local 0) (now + 1) late = true ∧
   date_ge (created (iso_local 0) late) (today 0 now) = false ∧
   newToday (stats (iso_local 0) 0 [late] now) = 0%nat).
Proof.
  split; [|by vm_compute].
  intros Date_parse tz users now now' Hday.
  assert (∀ u, date_ge (created Date_parse u) (today tz now) = true →
               isNew Date_parse now' u = true) as Hbadge.
  { intros u. unfold date_ge, isNew. destruct (created Date_parse u) as [c|]; [|done].
    intros Hc. apply Z.leb_le in Hc. apply Z.ltb_lt. unfold ms_per_day in *. lia. }
  split; [exact Hbadge|].
  cbn. rewrite !filter_length_count. by apply count_if_le.
Qed.

Lemma new_today_has_badge_witness :
  let u := joined "c" "2024-01-15T11:00:00" in
  1705320000001 - today 0 1705320000000 < ms_per_day ∧
  newToday (stats (iso_local 0) 0 [u] 1705320000000) = 1%nat ∧
  isNew (iso_local 0) 1705320000001 u = true ∧
  (newToday (stats (iso_local 0) 0 [u] 1705320000000) ≤
   length (List.filter (isNew (iso_local 0) 1705320000001) [u]))%nat.
Proof.
  assert (1705320000001 - today 0 1705320000000 < ms_per_day) as Hday
    by (vm_compute; reflexivity).
  destruct (proj1 new_today_has_badge (iso_local 0) 0
              [joined "c" "2024-01-15T11:00:00"] 1705320000000 1705320000001 Hday)
    as [Hbadge Hcount].
  split; [exact Hday|]. split; [reflexivity|]. split; [|exact Hcount].
  apply Hbadge. reflexivity.
Defined.

(** ** The gates together *)

(** X7. The admin gate is the narrower one: a request it lets through
    is let through by the authentication gate, for any configured admin
    email. A request without principal is stopped by both, with a
    redirect to [/] by the one and with status 403 by the other. *)
Theorem isAdmin_within_isAuthenticated (env : option string) (req : Req) :
  (isAdmin env req = Next → isAuthenticated req = Next) ∧
  (isAuthenticated req ≠ Next →
   isAuthenticated req = Respond (Redirect "/") ∧
   isAdmin env req = Respond (Send 403 "Access denied. Admin only.")).
Proof.
  unfold isAdmin, isAuthenticated. destruct (req_isAuthenticated req); split; done.
Qed.

Lemma isAdmin_within_isAuthenticated_witness :
  isAuthenticated {| user := VObj (to_object alice) |} = Next.
Proof.
  apply (isAdmin_within_isAuthenticated (Some "a@x.com")
           {| user := VObj (to_object alice) |}).
  reflexivity.
Defined.

(** X8. The sign-in page and the dashboard gate never send a browser
    back and forth: a request that [/] redirects to [/dashboard] passes
    the gate there, and a request the gate redirects to [/] is answered
    there with the sign-in page. *)
Theorem no_redirect_loop (signin_page : string) (req : Req) :
  (root_route signin_page req = Respond (Redirect "/dashboard") →
   isAuthenticated req = Next) ∧
  (isAuthenticated req = Respond (Redirect "/") →
   root_route signin_page req = Respond (Send 200 signin_page)).
Proof.
  unfold root_route, isAuthenticated.
  destruct (req_isAuthenticated req); split; done.
Qed.

Lemma no_redirect_loop_witness :
  root_route "<html>" {| user := VUndefined |} = Respond (Send 200 "<html>").
Proof.
  apply (no_redirect_loop "<html>" {| user := VUndefined |}). reflexivity.
Defined.

(** ** The dashboard after a sign-in *)

Lemma insert_row_error (row : object) (db : Store.DB) (err : Response) :
  Store.insert_row row db = inl err → data err = None.
Proof.
  unfold Store.insert_row. destruct (negb _); [by intros [= <-]|].
  destruct (Store.text_cell (assoc "google_id" row)) as [[g|]|];
    destruct (Store.text_cell (assoc "email" row)) as [[e|]|];
    try by intros [= <-].
  destruct (Store.text_cell (assoc "name" row)) as [n|]; [|by intros [= <-]].
  destruct (Store.text_cell (assoc "picture" row)) as [p|]; [|by intros [= <-]].
  destruct (_ || _); [by intros [= <-]|discriminate].
Qed.

Lemma assoc_assoc_set_ne (k k' : string) (v : value) (o : object) :
  k ≠ k' → assoc k (assoc_set k' v o) = assoc k o.
Proof.
  intros Hne. induction o as [|[k0 v0] o IH]; cbn.
  - by apply String.eqb_neq in Hne as ->.
  - destruct (String.eqb k' k0) eqn:Hk.
    + apply String.eqb_eq in Hk as <-. cbn. by apply String.eqb_neq in Hne as ->.
    + cbn. by rewrite IH.
Qed.

Lemma read_profile_id (profile g e n p : value) :
  read_profile profile = Return (g, e, n, p) → lookup_prop profile "id" = Some g.
Proof.
  unfold read_profile, get_prop, get_index, get_prop_opt, get_prop.
  destruct (lookup_prop profile "id") as [g0|]; cbn; [|discriminate].
  destruct (lookup_prop profile "emails") as [es|]; cbn; [|discriminate].
  destruct (lookup_index es 0) as [e0|]; cbn; [|discriminate].
  destruct (lookup_prop e0 "value") as [e1|]; cbn; [|discriminate].
  destruct (lookup_prop profile "displayName") as [n0|]; cbn; [|discriminate].
  destruct (lookup_prop profile "photos") as [ps|]; cbn; [|discriminate].
  destruct (lookup_index ps 0) as [p0|]; cbn; [|discriminate].
  destruct p0; cbn; try destruct (lookup_prop _ "value"); cbn; congruence.
Qed.

(** The row a select by [google_id] hands back is a record of the
    table with that subject id. *)
Lemma select_row (g : value) (db : Store.DB) (o : object) :
  data (Store.single (filter (fun u => Store.eq_filter "google_id" g u = true)
                        (Store.users db))) = Some o →
  ∃ row, row ∈ Store.users db ∧ o = to_object row ∧ g = VStr (User.google_id row).
Proof.
  destruct (filter _ (Store.users db)) as [|row [|row' rows]] eqn:Hf; cbn; try discriminate.
  intros [= <-]. exists row.
  assert (row ∈ filter (fun u => Store.eq_filter "google_id" g u = true) (Store.users db))
    as Hin by (rewrite Hf; apply list_elem_of_singleton; reflexivity).
  apply list_elem_of_filter in Hin as [Hg Hin]. split; [exact Hin|]. split; [done|].
  destruct g as [| |b|z|s|l|o]; try discriminate Hg.
  rewrite eq_filter_google_id in Hg. by apply String.eqb_eq in Hg as ->.
Qed.

(** The row an insert of one user hands back is the record added to
    the table, with the subject id of the payload. *)
Lemma insert_row_added (g e n p : value) (db db' : Store.DB) (r : Response) (o : object) :
  Store.perform (insert_user g e n p) db = (Fulfilled r, db') →
  data r = Some o →
  ∃ row, row ∈ Store.users db' ∧ o = to_object row ∧ g = VStr (User.google_id row).
Proof.
  cbn -[Store.insert_row].
  match goal with
  | |- context [Store.insert_row ?row db] =>
      destruct (Store.insert_row row db) as [err|u] eqn:Hrow
  end; cbn.
  - intros [= <- _] Hd. apply insert_row_error in Hrow. congruence.
  - intros [= <- <-]. cbn. intros [= <-]. exists u.
    split; [apply elem_of_app; right; apply list_elem_of_singleton; reflexivity|]. split; [done|].
    unfold Store.insert_row in Hrow. cbn in Hrow.
    destruct g, e; cbn in Hrow; try discriminate Hrow.
    destruct n; cbn in Hrow; try discriminate Hrow;
      destruct p; cbn in Hrow; try discriminate Hrow;
      (destruct (_ || _); [discriminate Hrow|]; by injection Hrow as <-).
Qed.

(** A record of the table is still there after the [last_login]
    update, with the same id, subject id and email. *)
Lemma update_keeps_row (now : string) (id : value) (db : Store.DB) (row : User.t) :
  row ∈ Store.users db →
  ∃ row', row' ∈ Store.users (Store.perform (update_last_login now id) db).2 ∧
          only_last_login_differs row row'.
Proof.
  intros Hin. apply list_elem_of_lookup in Hin as [i Hi].
  pose proof (perform_update_stamps now id db) as HF.
  destruct (Forall2_lookup_l _ _ _ _ _ HF Hi) as (row' & Hi' & Hd).
  exists row'. split; [|exact Hd]. by eapply list_elem_of_lookup_2.
Qed.

(** Where the user of a successful sign-in comes from: a record of
    the store as the sign-in leaves it, the one of the subject that
    signed in, with the flag set on its object. *)
Lemma success_row (profile : value) (now : string) (db db' : Store.DB)
    (u : object) (qs : list Request) :
  sign_in Store.perform profile now db = (Settles (Success u), db', qs) →
  ∃ row, row ∈ Store.users db' ∧
         lookup_prop profile "id" = Some (VStr (User.google_id row)) ∧
         assoc "id" u = Some (VStr (User.id row)) ∧
         assoc "email" u = Some (VStr (User.email row)).
Proof.
  destruct (read_profile_pure profile) as [(g & e & n & p & Hr)|(msg & Hr)].
  - rewrite (sign_in_query Store.perform profile now db g e n p Hr).
    rewrite (read_profile_id profile g e n p Hr). cbn [run].
    assert (Store.perform (select_user g) db =
            (Fulfilled (Store.single (filter (fun u => Store.eq_filter "google_id" g u = true)
                                        (Store.users db))), db)) as Hsel by reflexivity.
    rewrite Hsel. pose proof (select_row g db) as Hrow.
    destruct (Store.single _) as [d err]. cbn [data] in Hrow.
    assert (∀ o, d = Some o →
              ∃ row, row ∈ Store.users (Store.perform (update_last_login now
                       (default VUndefined (assoc "id" o))) db).2 ∧
                     g = VStr (User.google_id row) ∧
                     assoc "id" (assoc_set "isNewUser" (VBool false) o) =
                       Some (VStr (User.id row)) ∧
                     assoc "email" (assoc_set "isNewUser" (VBool false) o) =
                       Some (VStr (User.email row))) as Hupd.
    { intros o ->. destruct (Hrow o eq_refl) as (row & Hin & -> & ->).
      destruct (update_keeps_row now (default VUndefined (assoc "id" (to_object row)))
                  db row Hin) as (row' & Hin' & Hd).
      destruct Hd as (Hid & Hg & He & _).
      exists row'. split; [exact Hin'|]. rewrite Hid, Hg, He.
      rewrite !assoc_assoc_set_ne by discriminate. done. }
    cbn [after_select error data].
    destruct err as [err|].
    + destruct (String.eqb (code err) "PGRST116"); [|cbn; discriminate].
      destruct d as [o|]; cbn [run].
      * destruct (Hupd o eq_refl) as (row & Hin & -> & Hid & He).
        destruct (Store.perform (update_last_login now _) db) as [[r|reason] db2];
          cbn in Hin |- *; [|by destruct (truthy reason)].
        intros [= <- <- _]. by exists row.
      * destruct (Store.perform (insert_user g e n p) db)
          as [[[d' [err'|]]|reason] db2] eqn:Hq2; cbn;
          try discriminate; [|by destruct (truthy reason)].
        destruct d' as [o|]; cbn; [|discriminate].
        intros [= <- <- _].
        destruct (insert_row_added g e n p db db2 _ o Hq2 eq_refl) as (row & Hin & -> & ->).
        exists row. by rewrite !assoc_assoc_set_ne by discriminate.
    + destruct d as [o|]; cbn [run].
      * destruct (Hupd o eq_refl) as (row & Hin & -> & Hid & He).
        destruct (Store.perform (update_last_login now _) db) as [[r|reason] db2];
          cbn in Hin |- *; [|by destruct (truthy reason)].
        intros [= <- <- _]. by exists row.
      * destruct (Store.perform (insert_user g e n p) db)
          as [[[d' [err'|]]|reason] db2] eqn:Hq2; cbn;
          try discriminate; [|by destruct (truthy reason)].
        destruct d' as [o|]; cbn; [|discriminate].
        intros [= <- <- _].
        destruct (insert_row_added g e n p db db2 _ o Hq2 eq_refl) as (row & Hin & -> & ->).
        exists row. by rewrite !assoc_assoc_set_ne by discriminate.
  - unfold sign_in, verify. rewrite run_try_catch.
    pose proof (verify_body_read profile now) as Hbody. rewrite Hr in Hbody.
    rewrite Hbody. cbn. discriminate.
Qed.

(** X9. The dashboard always renders for a user signed in through the
    store: its unguarded [req.user.id.substring(0, 8)] finds a string.
    The user object carries the id and the email of a record of the
    store as the sign-in leaves it, the record of the subject that
    signed in; the account id shown is the first eight characters of
    that record's id and the email shown is that record's email. The
    welcome banner follows the query string alone, whether or not the
    sign-in created the user. *)
Theorem dashboard_renders_after_sign_in (Date_parse : string → option Z)
    (query : object) (profile : value) (now : string) (db db' : Store.DB)
    (u : object) (qs : list Request) :
  sign_in Store.perform profile now db = (Settles (Success u), db', qs) →
  ∃ (row : User.t) (p : DashboardPage),
    row ∈ Store.users db' ∧
    lookup_prop profile "id" = Some (VStr (User.google_id row)) ∧
    assoc "id" u = Some (VStr (User.id row)) ∧
    assoc "email" u = Some (VStr (User.email row)) ∧
    dashboard_route Date_parse query {| user := VObj u |} = Rendered p ∧
    account_id p = String.substring 0 8 (User.id row) ∧
    email_line p = User.email row ∧
    welcome_banner p =
      strict_eq_string (default VUndefined (assoc "welcome" query)) "true".
Proof.
  intros Hrun.
  destruct (success_row profile now db db' u qs Hrun) as (row & Hin & Hg & Hid & He).
  exists row.
  unfold dashboard_route, dashboard_handler, isAuthenticated, req_isAuthenticated.
  cbn [user truthy lookup_prop substring_0_8]. rewrite Hid, He. cbn.
  eexists. repeat split; done.
Qed.

Lemma dashboard_renders_after_sign_in_witness :
  ∃ (row : User.t) (p : DashboardPage),
    row ∈ [User.with_last_login (Some "2024-01-02T10:00:00") alice] ∧
    lookup_prop (profile_of alice_again) "id" = Some (VStr (User.google_id row)) ∧
    assoc "id" (to_object alice ++ [("isNewUser", VBool false)])%list =
      Some (VStr (User.id row)) ∧
    assoc "email" (to_object alice ++ [("isNewUser", VBool false)])%list =
      Some (VStr (User.email row)) ∧
    dashboard_route (iso_local 0) [("welcome", VStr "true")]
      {| user := VObj (to_object alice ++ [("isNewUser", VBool false)])%list |} =
      Rendered p ∧
    account_id p = String.substring 0 8 (User.id row) ∧
    email_line p = User.email row ∧
    welcome_banner p = true.
Proof.
  apply (dashboard_renders_after_sign_in (iso_local 0) [("welcome", VStr "true")]
           (profile_of alice_again) "2024-01-02T10:00:00" alice_db
           (Store.with_users [User.with_last_login (Some "2024-01-02T10:00:00") alice]
              alice_db)
           (to_object alice ++ [("isNewUser", VBool false)])%list
           [select_user (VStr "g-0");
            update_last_login "2024-01-02T10:00:00" (VStr "0")]).
  reflexivity.
Defined.

(** Without a string id the handler throws and the error middleware
    answers. *)
Example dashboard_without_id :
  dashboard_route (iso_local 0) [] {| user := VObj [("email", VStr "a@x.com")] |} =
  Stopped (NextError (cannot_read "substring")).
Proof. reflexivity. Qed.

(** ** The admin page *)

(** X10. The admin route asks the store only for requests the admin
    gate lets through; every other request is answered 403 without a
    query. Once asked, it answers 200 with the page for the users
    returned and their statistics when the store returns users without
    error, and otherwise (an error answer, a rejected promise, no data)
    status 500 with the text "Error loading admin dashboard"; it never
    passes an error on. *)
Theorem admin_route_answers (env : option string) (Date_parse : string → option Z)
    (tz : Z) (render : list User.t → Stats → string) (now : Z) (req : Req) :
  match admin_route env Date_parse tz render now req with
  | Answers h => isAdmin env req ≠ Next ∧ h = Respond access_denied
  | Asks k =>
      isAdmin env req = Next ∧
      ∀ s, match s with
           | ListingFulfilled {| listed := Some users; failure := None |} =>
               k s = Respond (Send 200 (render users (stats Date_parse tz users now)))
           | _ => k s = Respond (Send 500 "Error loading admin dashboard")
           end
  end.
Proof.
  unfold admin_route.
  assert (isAdmin env req = Next ∨ isAdmin env req = Respond access_denied) as [H|H].
  { unfold isAdmin. destruct (req_isAuthenticated req) eqn:Ha; [|by right].
    destruct (truthy_lookup_prop _ "email" Ha) as [email ->].
    destruct (strict_eq_string _ _); auto. }
  - rewrite H. split; [done|].
    intros [[[users|] [err|]]|reason]; reflexivity.
  - rewrite H. split; [discriminate|done].
Qed.

(** ** Regular expressions *)

Module RegexFacts.
Import Stdlib.Strings.Ascii.
Import Regex.

Lemma append_nil_r (s : string) : s +:+ EmptyString = s.
Proof.
  induction s as [|c s IH]; [done|].
  change (String c (s +:+ EmptyString) = String c s). by rewrite IH.
Qed.

Lemma append_assoc (s1 s2 s3 : string) : (s1 +:+ s2) +:+ s3 = s1 +:+ (s2 +:+ s3).
Proof.
  induction s1 as [|c s1 IH]; [done|].
  change (String c ((s1 +:+ s2) +:+ s3) = String c (s1 +:+ (s2 +:+ s3))).
  by rewrite IH.
Qed.

Lemma append_cons (c : ascii) (s1 s2 : string) :
  String c s1 +:+ s2 = String c (s1 +:+ s2).
Proof. reflexivity. Qed.

Lemma append_nil_l (s : string) : EmptyString +:+ s = s.
Proof. reflexivity. Qed.

Lemma append_nil (s1 s2 : string) :
  s1 +:+ s2 = EmptyString → s1 = EmptyString ∧ s2 = EmptyString.
Proof. destruct s1; [by rewrite append_nil_l|by rewrite append_cons]. Qed.

(** A split of a string that starts with [c]: either the first part is
    empty or it starts with [c]. *)
Lemma append_eq_cons (s1 s2 s : string) (c : ascii) :
  s1 +:+ s2 = String c s →
  (s1 = EmptyString ∧ s2 = String c s) ∨
  (∃ s1', s1 = String c s1' ∧ s = s1' +:+ s2).
Proof.
  destruct s1 as [|c1 s1].
  - rewrite append_nil_l. by left.
  - rewrite append_cons. intros [= -> <-]. right. eauto.
Qed.

Lemma matches_cat (r1 r2 : t) (s : string) :
  Matches (Cat r1 r2) s ↔ ∃ s1 s2, s = s1 +:+ s2 ∧ Matches r1 s1 ∧ Matches r2 s2.
Proof.
  split.
  - inversion 1; subst. eauto.
  - intros (s1 & s2 & -> & H1 & H2). by constructor.
Qed.

Lemma matches_star (r : t) (s : string) :
  Matches (Star r) s ↔
  s = EmptyString ∨ ∃ s1 s2, s = s1 +:+ s2 ∧ Matches r s1 ∧ Matches (Star r) s2.
Proof.
  split.
  - inversion 1; subst; [by left|right; eauto].
  - intros [->|(s1 & s2 & -> & H1 & H2)]; by constructor.
Qed.

Lemma nullable_spec (r : t) : nullable r = true ↔ Matches r EmptyString.
Proof.
  induction r as [| | | |r1 IH1 r2 IH2|r1 IH1 r2 IH2|r IH]; cbn.
  - split; [discriminate|inversion 1].
  - split; [constructor|done].
  - split; [discriminate|inversion 1].
  - split; [discriminate|inversion 1].
  - rewrite orb_true_iff, IH1, IH2. split.
    + intros [H|H]; [by apply MAltL|by apply MAltR].
    + inversion 1; subst; auto.
  - rewrite andb_true_iff, IH1, IH2, matches_cat. split.
    + intros [H1 H2]. by exists EmptyString, EmptyString.
    + intros (s1 & s2 & Hs & H1 & H2). symmetry in Hs.
      apply append_nil in Hs as [-> ->]. done.
  - split; [constructor|done].
Qed.

(** A match of [Star r] on a non-empty string starts with a non-empty
    match of [r]. *)
Lemma star_cons (r : t) (c : ascii) (s : string) :
  Matches (Star r) (String c s) →
  ∃ s1 s2, s = s1 +:+ s2 ∧ Matches r (String c s1) ∧ Matches (Star r) s2.
Proof.
  intros H. remember (Star r) as r' eqn:Hr. remember (String c s) as s' eqn:Hs.
  revert r c s Hr Hs.
  induction H as [| | | | | | |r0 s1 s2 H1 _ H2 IH2]; intros r' c' s' Hr Hs;
    try discriminate.
  injection Hr as ->.
  apply append_eq_cons in Hs as [[-> ->]|(s1' & -> & ->)].
  - by apply IH2.
  - eauto.
Qed.

Lemma deriv_spec (c : ascii) (r : t) (s : string) :
  Matches (deriv c r) s ↔ Matches r (String c s).
Proof.
  revert s. induction r as [| |x|ex|r1 IH1 r2 IH2|r1 IH1 r2 IH2|r IH]; intros s; cbn.
  - split; inversion 1.
  - split; inversion 1.
  - destruct (Ascii.eqb_spec c x) as [->|Hne].
    + split; inversion 1; subst; constructor.
    + split; inversion 1; subst; done.
  - destruct (occurs c ex) eqn:Ho.
    + split; inversion 1; subst; congruence.
    + split; inversion 1; subst; by constructor.
  - split.
    + inversion 1; subst; [apply MAltL; by apply IH1|apply MAltR; by apply IH2].
    + inversion 1; subst; [apply MAltL; by apply IH1|apply MAltR; by apply IH2].
  - assert (Matches (Cat (deriv c r1) r2) s ↔
            ∃ s1 s2, s = s1 +:+ s2 ∧ Matches r1 (String c s1) ∧ Matches r2 s2) as Hcat.
    { rewrite matches_cat. split.
      - intros (s1 & s2 & -> & H1 & H2). exists s1, s2. by rewrite <- IH1.
      - intros (s1 & s2 & -> & H1 & H2). exists s1, s2. by rewrite IH1. }
    assert (Matches (Cat r1 r2) (String c s) ↔
            (∃ s1 s2, s = s1 +:+ s2 ∧ Matches r1 (String c s1) ∧ Matches r2 s2) ∨
            (Matches r1 EmptyString ∧ Matches r2 (String c s))) as Hfull.
    { rewrite matches_cat. split.
      - intros (s1 & s2 & Hs & H1 & H2). symmetry in Hs.
        apply append_eq_cons in Hs as [[-> ->]|(s1' & -> & ->)]; [by right|].
        left. eauto.
      - intros [(s1 & s2 & -> & H1 & H2)|[H1 H2]].
        + by exists (String c s1), s2.
        + by exists EmptyString, (String c s). }
    rewrite Hfull. destruct (nullable r1) eqn:Hn.
    + apply nullable_spec in Hn. split.
      * inversion 1; subst; [left; by apply Hcat|right; split; [done|by apply IH2]].
      * intros [H|[_ H]]; [apply MAltL; by apply Hcat|apply MAltR; by apply IH2].
    + rewrite Hcat. split; [by left|]. intros [H|[H _]]; [done|].
      apply nullable_spec in H. congruence.
  - rewrite matches_cat. split.
    + intros (s1 & s2 & -> & H1 & H2).
      apply (MStarCons r (String c s1) s2); [by apply IH|done].
    + intros H. apply star_cons in H as (s1 & s2 & -> & H1 & H2).
      exists s1, s2. by rewrite IH.
Qed.

(** [test] decides [Matches]. *)
Lemma test_spec (r : t) (s : string) : test r s = true ↔ Matches r s.
Proof.
  revert r. induction s as [|c s IH]; intros r; cbn.
  - apply nullable_spec.
  - rewrite IH. apply deriv_spec.
Qed.

Lemma matches_lit (l s : string) : Matches (lit l) s ↔ s = l.
Proof.
  revert s. induction l as [|c l IH]; intros s; cbn.
  - split; [by inversion 1|intros ->; constructor].
  - rewrite matches_cat. split.
    + intros (s1 & s2 & -> & H1 & H2). inversion H1; subst.
      apply IH in H2 as ->. done.
    + intros ->. exists (String c EmptyString), l. split; [done|].
      split; [constructor|by apply IH].
Qed.

Lemma occurs_append (c : ascii) (s1 s2 : string) :
  occurs c (s1 +:+ s2) = occurs c s1 || occurs c s2.
Proof.
  induction s1 as [|x s1 IH]; [done|].
  rewrite append_cons. cbn. by rewrite IH, orb_assoc.
Qed.

Lemma matches_star_none_of (ex s : string) :
  Matches (Star (NoneOf ex)) s ↔ ∀ c, occurs c s = true → occurs c ex = false.
Proof.
  split.
  - intros H. remember (Star (NoneOf ex)) as r eqn:Hr. revert Hr.
    induction H as [| | | | | | |r0 s1 s2 H1 _ H2 IH2]; intros Hr;
      try discriminate.
    specialize (IH2 Hr). injection Hr as ->. inversion H1; subst. intros c' Hc'.
    rewrite occurs_append in Hc'. apply orb_true_iff in Hc' as [Hc'|Hc'].
    + cbn in Hc'. rewrite orb_false_r in Hc'. apply Ascii.eqb_eq in Hc' as ->. done.
    + by apply IH2.
  - induction s as [|c s IH]; intros H; [constructor|].
    apply (MStarCons (NoneOf ex) (String c EmptyString) s).
    + constructor. apply H. cbn. by rewrite Ascii.eqb_refl.
    + apply IH. intros c' Hc'. apply H. cbn. by rewrite Hc', orb_true_r.
Qed.

Lemma matches_plus_none_of (ex s : string) :
  Matches (Plus (NoneOf ex)) s ↔
  s ≠ EmptyString ∧ ∀ c, occurs c s = true → occurs c ex = false.
Proof.
  unfold Plus. rewrite matches_cat. split.
  - intros (s1 & s2 & -> & H1 & H2). inversion H1; subst.
    split; [by rewrite append_cons|]. apply matches_star_none_of.
    by apply (MStarCons (NoneOf ex) (String c EmptyString) s2).
  - intros [Hne H]. destruct s as [|c s]; [done|].
    exists (String c EmptyString), s. split; [done|]. split.
    + constructor. apply H. cbn. by rewrite Ascii.eqb_refl.
    + apply matches_star_none_of. intros c' Hc'. apply H. cbn.
      by rewrite Hc', orb_true_r.
Qed.

End RegexFacts.

(** ** The Gmail watch diagnostic *)

(** X11. The topic check of the diagnostic accepts exactly the names
    [projects/<a>/topics/<b>] where [<a>] and [<b>] are not empty and
    hold no slash. *)
Theorem topicPattern_accepts (topic : string) :
  Regex.test Diagnose.topicPattern topic = true ↔
  ∃ a b, topic = "projects/" +:+ a +:+ "/topics/" +:+ b ∧ Diagnose.segment a ∧ Diagnose.segment b.
Proof.
  rewrite RegexFacts.test_spec. unfold Diagnose.topicPattern.
  rewrite RegexFacts.matches_cat. split.
  - intros (s1 & s2 & -> & H1 & H2).
    apply RegexFacts.matches_lit in H1 as ->.
    apply RegexFacts.matches_cat in H2 as (a & s3 & -> & Ha & H3).
    apply RegexFacts.matches_cat in H3 as (s4 & b & -> & H4 & Hb).
    apply RegexFacts.matches_lit in H4 as ->.
    apply RegexFacts.matches_plus_none_of in Ha, Hb.
    exists a, b. done.
  - intros (a & b & -> & Ha & Hb).
    exists "projects/", (a +:+ "/topics/" +:+ b). split; [done|].
    split; [by apply RegexFacts.matches_lit|].
    apply RegexFacts.matches_cat. exists a, ("/topics/" +:+ b). split; [done|].
    split; [by apply RegexFacts.matches_plus_none_of|].
    apply RegexFacts.matches_cat. exists "/topics/", b. split; [done|].
    split; [by apply RegexFacts.matches_lit|by apply RegexFacts.matches_plus_none_of].
Qed.

Example topicPattern_samples :
  Regex.test Diagnose.topicPattern "projects/my-project/topics/gmail-notifications" = true ∧
  Regex.test Diagnose.topicPattern "projects/my-project/topics/" = false ∧
  Regex.test Diagnose.topicPattern "projects/a/b/topics/c" = false ∧
  Regex.test Diagnose.topicPattern "gmail-notifications" = false ∧
  Regex.test Diagnose.topicPattern " projects/p/topics/t" = false.
Proof. repeat split. Qed.

Module DiagnoseFacts.
Import Diagnose.
#[local] Open Scope list_scope.

Lemma lacks_tokens_spec (u : object) : lacks_tokens u = negb (has_tokens u).
Proof. unfold lacks_tokens, has_tokens. by rewrite negb_andb. Qed.

Lemma filter_split {A : Type} (p q : A → bool) (l : list A) :
  (∀ x, q x = negb (p x)) → List.filter p l ++ List.filter q l ≡ₚ l.
Proof.
  intros Hq. induction l as [|x l IH]; [done|]. cbn. rewrite Hq.
  destruct (p x); cbn.
  - by rewrite IH.
  - rewrite <- Permutation_middle. by rewrite IH.
Qed.

(** The loop of step 1 collects the variables that are not set, in the
    order of the list. *)
Lemma check_env_loop (env : string → option string) (vars : list string)
    (out : list Line) (missing : list string) :
  (foldl (fun '(out, missingVars) varName =>
            if is_set env varName then
              (out ++ [EnvOk varName
                         (if String.eqb varName "GMAIL_PUBSUB_TOPIC"
                          then default EmptyString (env varName) else "Set")],
               missingVars)
            else (out ++ [EnvMissing varName], missingVars ++ [varName]))
         (out, missing) vars).2 =
  missing ++ List.filter (fun v => negb (is_set env v)) vars.
Proof.
  revert out missing. induction vars as [|v vars IH]; intros out missing; cbn.
  - by rewrite app_nil_r.
  - destruct (is_set env v); cbn; rewrite IH; [done|]. by rewrite <- app_assoc.
Qed.

Lemma check_env_missing (env : string → option string) :
  (check_env env).2 = List.filter (fun v => negb (is_set env v)) requiredEnvVars.
Proof. unfold check_env. by rewrite check_env_loop. Qed.

Lemma filter_nil_forallb {A : Type} (p : A → bool) (l : list A) :
  List.filter (fun x => negb (p x)) l = [] ↔ forallb p l = true.
Proof.
  induction l as [|x l IH]; cbn; [done|].
  destruct (p x); cbn; [done|]. split; discriminate.
Qed.

Lemma quiet_last (out : list Line) : quiet out → last out ≠ Some Complete.
Proof.
  intros Hq Hl. apply last_Some in Hl as [pre ->].
  apply Forall_app in Hq as [_ Hq]. by inversion Hq.
Qed.

Lemma check_env_quiet (env : string → option string) : quiet (check_env env).1.
Proof.
  unfold check_env, requiredEnvVars. cbn [foldl].
  repeat match goal with
         | |- context [is_set env ?v] => destruct (is_set env v)
         end; cbn; repeat constructor; discriminate.
Qed.

Lemma report_users_quiet (users : list object) : quiet (report_users users).
Proof.
  unfold report_users, quiet. repeat (apply Forall_app; split).
  - repeat constructor; discriminate.
  - destruct (_ <? _)%nat; repeat constructor; discriminate.
  - destruct (_ <? _)%nat; [|constructor].
    apply Forall_forall. intros l Hl. apply list_elem_of_In, in_map_iff in Hl.
    destruct Hl as (u & <- & _). discriminate.
  - destruct (_ <? _)%nat; [|constructor].
    apply Forall_forall. intros l Hl. apply list_elem_of_In, in_map_iff in Hl.
    destruct Hl as (u & <- & _). discriminate.
Qed.

Lemma on_error_quiet (answer : Query → Reply) (report : string → Line) (e : exn) :
  (∀ m, report m ≠ Complete) →
  ∃ out crash, run answer (on_error report e) = (out, [], crash) ∧ quiet out.
Proof.
  intros Hr. unfold on_error. destruct (caught_message e) as [m|]; cbn.
  - do 2 eexists. split; [done|]. repeat constructor. apply Hr.
  - do 2 eexists. split; [done|]. constructor.
Qed.

(** The three checks after step 1: they end with [Complete] when the
    store accepts all three queries, and otherwise stop at the first
    one it does not. *)
Lemma run_checks (env : string → option string) (answer : Query → Reply) :
  ∃ out qs crash,
    run answer (check_connection env) = (out, qs, crash) ∧
    qs `prefix_of` [CheckConnection; CheckColumns; ListTokens] ∧
    if accepted (answer CheckConnection) && accepted (answer CheckColumns) &&
       lists_users (answer ListTokens)
    then last out = Some Complete ∧
         qs = [CheckConnection; CheckColumns; ListTokens] ∧ crash = None
    else quiet out.
Proof.
  unfold check_connection. cbn [run].
  destruct (answer CheckConnection) as [[f1 [e1|]]|reason1]; cbn [accepted problem andb].
  - destruct (on_error_quiet answer ConnectionFailed (PostgrestError e1))
      as (out & crash & -> & Hq); [discriminate|].
    do 3 eexists. split; [done|]. split; [by exists [CheckColumns; ListTokens]|done].
  - unfold check_columns, check_users. cbn [run].
    destruct (answer CheckColumns) as [[f2 [e2|]]|reason2]; cbn [accepted problem andb run].
    + do 3 eexists. split; [done|]. split; [by exists [ListTokens]|].
      repeat constructor; discriminate.
    + destruct (answer ListTokens) as [[[users|] [e3|]]|reason3];
        cbn [lists_users problem found].
      * destruct (on_error_quiet answer UserCheckFailed (PostgrestError e3))
          as (out & crash & -> & Hq); [discriminate|].
        do 3 eexists. split; [done|]. split; [by exists []|].
        repeat constructor; try discriminate. done.
      * unfold check_topic. cbn [run].
        do 3 eexists. split; [done|]. split; [by exists []|].
        split; [|done]. rewrite !last_app. done.
      * destruct (on_error_quiet answer UserCheckFailed (PostgrestError e3))
          as (out & crash & -> & Hq); [discriminate|].
        do 3 eexists. split; [done|]. split; [by exists []|].
        repeat constructor; try discriminate. done.
      * destruct (on_error_quiet answer UserCheckFailed (cannot_read "filter"))
          as (out & crash & -> & Hq); [discriminate|].
        do 3 eexists. split; [done|]. split; [by exists []|].
        repeat constructor; try discriminate. done.
      * destruct (on_error_quiet answer UserCheckFailed (Rejection reason3))
          as (out & crash & -> & Hq); [discriminate|].
        do 3 eexists. split; [done|]. split; [by exists []|].
        repeat constructor; try discriminate. done.
    + destruct (on_error_quiet answer SchemaCheckFailed (Rejection reason2))
        as (out & crash & -> & Hq); [discriminate|].
      do 3 eexists. split; [done|]. split; [by exists [ListTokens]|].
      repeat constructor; try discriminate. done.
  - destruct (on_error_quiet answer ConnectionFailed (Rejection reason1))
      as (out & crash & -> & Hq); [discriminate|].
    do 3 eexists. split; [done|]. split; [by exists [CheckColumns; ListTokens]|done].
Qed.

End DiagnoseFacts.

(** X12. The diagnostic sorts the users of step 4 into two lists that
    together hold every user exactly once: a user is listed as needing
    re-authentication exactly when it is not listed as having tokens. *)
Theorem token_lists_partition (users : list object) :
  (Diagnose.usersWithTokens users ++ Diagnose.usersWithoutTokens users ≡ₚ users)%list ∧
  (∀ u, Diagnose.lacks_tokens u = negb (Diagnose.has_tokens u)) ∧
  (length (Diagnose.usersWithTokens users) +
   length (Diagnose.usersWithoutTokens users) = length users)%nat.
Proof.
  assert (Diagnose.usersWithTokens users ++ Diagnose.usersWithoutTokens users ≡ₚ users)%list
    as Hp by apply DiagnoseFacts.filter_split, DiagnoseFacts.lacks_tokens_spec.
  split; [exact Hp|]. split; [apply DiagnoseFacts.lacks_tokens_spec|].
  rewrite <- length_app. by apply Permutation_length.
Qed.

(** X13. When a required variable is unset or empty the diagnostic
    stops after step 1 without asking the store anything, and the
    summary names exactly the variables that are not set, in the order
    of the list; when all six are set it goes on to the connection
    check. *)
Theorem missing_vars_stop (env : string → option string) :
  let missing := List.filter (fun v => negb (Diagnose.is_set env v))
                   Diagnose.requiredEnvVars in
  match Diagnose.diagnoseGmailWatch env with
  | Diagnose.Ends out =>
      missing ≠ [] ∧
      last out = Some (Diagnose.MissingSummary (String.concat ", " missing))
  | Diagnose.Asks _ q _ => missing = [] ∧ q = Diagnose.CheckConnection
  | Diagnose.Escapes _ _ => False
  end.
Proof.
  cbn zeta. unfold Diagnose.diagnoseGmailWatch.
  pose proof (DiagnoseFacts.check_env_missing env) as Hm.
  destruct (Diagnose.check_env env) as [out missing]. cbn [snd] in Hm. subst missing.
  generalize (List.filter (fun v => negb (Diagnose.is_set env v))
                Diagnose.requiredEnvVars).
  intros [|v missing]; cbn [length Nat.ltb Nat.leb].
  - done.
  - split; [done|]. by rewrite last_snoc.
Qed.

(** X14. The diagnostic reaches its closing line exactly when all six
    variables are set and the store accepts the three queries, the third
    with a list of users; the format of the topic name does not matter.
    The queries sent are always an initial part of connection, columns,
    tokens, and a run that reaches the closing line sent all three and
    let no exception escape. *)
Theorem diagnosis_completes (env : string → option string)
    (answer : Diagnose.Query → Diagnose.Reply) :
  let '(out, qs, crash) := Diagnose.run answer (Diagnose.diagnoseGmailWatch env) in
  qs `prefix_of` [Diagnose.CheckConnection; Diagnose.CheckColumns; Diagnose.ListTokens] ∧
  (last out = Some Diagnose.Complete ↔
     forallb (Diagnose.is_set env) Diagnose.requiredEnvVars = true ∧
     Diagnose.accepted (answer Diagnose.CheckConnection) = true ∧
     Diagnose.accepted (answer Diagnose.CheckColumns) = true ∧
     Diagnose.lists_users (answer Diagnose.ListTokens) = true) ∧
  (last out = Some Diagnose.Complete →
     qs = [Diagnose.CheckConnection; Diagnose.CheckColumns; Diagnose.ListTokens] ∧
     crash = None).
Proof.
  unfold Diagnose.diagnoseGmailWatch.
  pose proof (DiagnoseFacts.check_env_missing env) as Hm.
  pose proof (DiagnoseFacts.check_env_quiet env) as Hq0.
  destruct (Diagnose.check_env env) as [out0 missing]. cbn [fst snd] in Hm, Hq0.
  pose proof (DiagnoseFacts.filter_nil_forallb (Diagnose.is_set env)
                Diagnose.requiredEnvVars) as Hall.
  rewrite <- Hm in Hall. clear Hm.
  destruct missing as [|v missing]; cbn [length Nat.ltb Nat.leb].
  - destruct (DiagnoseFacts.run_checks env answer) as (out & qs & crash & Hrun & Hpre & Hc).
    unfold Diagnose.check_connection in *. cbn [Diagnose.run] in *.
    destruct (Diagnose.run answer _) as [[o q] c].
    injection Hrun as <- <- <-.
    split; [done|].
    destruct (Diagnose.accepted (answer Diagnose.CheckConnection));
      [destruct (Diagnose.accepted (answer Diagnose.CheckColumns));
       [destruct (Diagnose.lists_users (answer Diagnose.ListTokens))|]|];
      cbn [andb] in Hc.
    + destruct Hc as (Hl & -> & ->). rewrite last_app, Hl.
      split; [|done]. split; [intros _|done]. split; [by apply Hall|done].
    + assert (last ((out0 ++ []) ++ o) ≠ Some Diagnose.Complete) as Hn
        by (rewrite app_nil_r; apply DiagnoseFacts.quiet_last, Forall_app; done).
      split; [|done]. split; [done|]. by intros (_ & _ & _ & ?).
    + assert (last ((out0 ++ []) ++ o) ≠ Some Diagnose.Complete) as Hn
        by (rewrite app_nil_r; apply DiagnoseFacts.quiet_last, Forall_app; done).
      split; [|done]. split; [done|]. by intros (_ & _ & ? & _).
    + assert (last ((out0 ++ []) ++ o) ≠ Some Diagnose.Complete) as Hn
        by (rewrite app_nil_r; apply DiagnoseFacts.quiet_last, Forall_app; done).
      split; [|done]. split; [done|]. by intros (_ & ? & _ & _).
  - cbn [Diagnose.run]. split; [by eexists|].
    rewrite last_snoc. split; [|done]. split; [done|].
    intros (Hf & _). by apply Hall in Hf.
Qed.

(** ** The automated setup *)

Module SetupFacts.
Import Setup.

Lemma section_value (config : value) (section key : string) :
  optional_get (optional_get config section) key =
  match config with
  | VObj o =>
      match assoc section o with
      | Some (VObj sec) => default VUndefined (assoc key sec)
      | Some (VArr l) =>
          if String.eqb key "length" then VNum (Z.of_nat (length l)) else VUndefined
      | Some (VStr s) =>
          if String.eqb key "length" then VNum (Z.of_nat (String.length s)) else VUndefined
      | _ => VUndefined
      end
  | VArr l =>
      optional_get
        (if String.eqb section "length" then VNum (Z.of_nat (length l)) else VUndefined) key
  | VStr s =>
      optional_get
        (if String.eqb section "length" then VNum (Z.of_nat (String.length s)) else VUndefined)
        key
  | _ => VUndefined
  end.
Proof.
  destruct config as [| |b|n|s|l|o]; try done.
  cbn. destruct (assoc section o) as [[| |b|n|s|l|sec]|]; done.
Qed.

Lemma good_credential (config : value) (section key : string) :
  section ≠ "length" →
  missing_or_placeholder (optional_get (optional_get config section) key) = inr false ↔
  credential config section key.
Proof.
  intros Hs. apply String.eqb_neq in Hs. rewrite section_value. split.
  - destruct config as [| |b|n|s|l|o]; try done; try (by rewrite Hs).
    destruct (assoc section o) as [[| |b|n|s|l|sec]|] eqn:Ho; try done.
    + destruct (String.eqb key "length"); [|done].
      unfold missing_or_placeholder. cbn [truthy]. by destruct (_ =? 0).
    + destruct (String.eqb key "length"); [|done].
      unfold missing_or_placeholder. cbn [truthy]. by destruct (_ =? 0).
    + destruct (assoc key sec) as [[| |b|n|s|l|sec']|] eqn:Hk; try done.
      * unfold missing_or_placeholder. cbn. by destruct b.
      * unfold missing_or_placeholder. cbn. by destruct (n =? 0).
      * unfold missing_or_placeholder. cbn [truthy].
        destruct s as [|c s]; [done|]. cbn [String.eqb negb].
        intros [= Hp]. exists o, sec, (String c s). done.
  - intros (o & sec & s & -> & -> & -> & Hne & Hp). cbn.
    unfold missing_or_placeholder. destruct s as [|c s]; [done|].
    cbn [truthy String.eqb negb]. by rewrite Hp.
Qed.

Lemma prefix_append (sub t : string) : String.prefix sub (sub +:+ t) = true.
Proof.
  induction sub as [|c sub IH]; [by destruct t|].
  change (String c sub +:+ t) with (String c (sub +:+ t)). cbn.
  destruct (Ascii.ascii_dec c c); done.
Qed.

Lemma includes_prefix (s sub : string) : String.prefix sub s = true → includes s sub = true.
Proof. intros H. destruct s; cbn [includes]; by rewrite H. Qed.

Lemma includes_append_r (s t sub : string) :
  includes t sub = true → includes (s +:+ t) sub = true.
Proof.
  intros H. induction s as [|c s IH]; [done|].
  change (String c s +:+ t) with (String c (s +:+ t)). cbn [includes].
  rewrite IH. apply orb_true_r.
Qed.

Lemma includes_concat (sep line sub : string) (lines : list string) :
  In line lines → String.prefix sub line = true →
  includes (String.concat sep lines) sub = true.
Proof.
  intros Hin Hp. induction lines as [|l lines IH]; [done|].
  destruct Hin as [->|Hin].
  - destruct lines as [|l' lines]; cbn [String.concat]; [by apply includes_prefix|].
    apply includes_prefix.
    clear IH. revert sub Hp. induction line as [|c line IHl]; intros sub Hp.
    + destruct sub; [|done]. by destruct (_ +:+ _).
    + destruct sub as [|c' sub]; [done|].
      change (String c line +:+ ?t) with (String c (line +:+ t)). cbn in *.
      destruct (Ascii.ascii_dec c' c); [|done]. by apply IHl.
  - specialize (IH Hin). destruct lines as [|l' lines]; [done|].
    cbn [String.concat]. by do 2 apply includes_append_r.
Qed.

Lemma throws_spec (v : value) (e : exn) :
  missing_or_placeholder v = inl e ↔
  e = TypeError "value.startsWith is not a function" ∧ not_a_string v.
Proof.
  unfold missing_or_placeholder, not_a_string.
  destruct v as [| |b|n|s|l|o]; cbn [truthy negb]; try (split; [done|by intros (_ & ? & _)]).
  - destruct b; cbn; [|split; [done|by intros (_ & ? & _)]].
    split; [by intros [= <-]|by intros (-> & _)].
  - destruct (n =? 0); cbn; [split; [done|by intros (_ & ? & _)]|].
    split; [by intros [= <-]|by intros (-> & _)].
  - destruct (negb (negb _)); split; try done.
    + intros (_ & _ & H). by destruct (H s).
    + intros (_ & _ & H). by destruct (H s).
  - split; [by intros [= <-]|by intros (-> & _)].
  - split; [by intros [= <-]|by intros (-> & _)].
Qed.

Lemma returns_string (v : value) (b : bool) :
  missing_or_placeholder v = inr b → ¬ not_a_string v.
Proof.
  intros H Hn.
  destruct (throws_spec v (TypeError "value.startsWith is not a function")) as [_ Ht].
  rewrite Ht in H; done.
Qed.

Lemma bind_return_inv {A B : Type} (m : Eff A) (f : A → Eff B) (b : B) :
  m ≫= f = Return b → ∃ a, m = Return a ∧ f a = Return b.
Proof. destruct m as [a|e|q k]; [by exists a|done|done]. Qed.

Lemma envContent_passes (client_id client_secret callback_url project_url anon_key
    service_role_key session_secret : value) (origins : string) :
  testEnvVars (envContent client_id client_secret callback_url project_url anon_key
                 service_role_key session_secret origins) = Passes.
Proof.
  unfold testEnvVars, envContent. cbn [List.find].
  change ("GOOGLE_CLIENT_ID" +:+ "=") with "GOOGLE_CLIENT_ID=".
  change ("SUPABASE_URL" +:+ "=") with "SUPABASE_URL=".
  change ("SESSION_SECRET" +:+ "=") with "SESSION_SECRET=".
  rewrite (includes_concat nl ("GOOGLE_CLIENT_ID=" +:+ to_string client_id));
    [|cbn; tauto|apply prefix_append].
  rewrite (includes_concat nl ("SUPABASE_URL=" +:+ to_string project_url));
    [|cbn; tauto|apply prefix_append].
  rewrite (includes_concat nl ("SESSION_SECRET=" +:+ to_string session_secret));
    [|cbn; tauto|apply prefix_append].
  done.
Qed.

End SetupFacts.

(** X15. [validateConfig] returns [true] exactly when the configuration
    is an object whose [google_oauth] section holds [client_id] and
    [client_secret] and whose [supabase] section holds [project_url] and
    [anon_key], each a string that is not empty and does not start with
    [YOUR_]; it then adds no error to [this.errors]. *)
Theorem validateConfig_accepts (config : value) (errors : list string) :
  ((Setup.validateConfig config errors).1 = inr true ↔
   Setup.credential config "google_oauth" "client_id" ∧
   Setup.credential config "google_oauth" "client_secret" ∧
   Setup.credential config "supabase" "project_url" ∧
   Setup.credential config "supabase" "anon_key") ∧
  ((Setup.validateConfig config errors).1 = inr true →
   (Setup.validateConfig config errors).2 = errors).
Proof.
  unfold Setup.validateConfig, Setup.required. cbn [Setup.validate].
  change (Setup.getNestedValue config "google_oauth.client_id")
    with (Setup.optional_get (Setup.optional_get config "google_oauth") "client_id").
  change (Setup.getNestedValue config "google_oauth.client_secret")
    with (Setup.optional_get (Setup.optional_get config "google_oauth") "client_secret").
  change (Setup.getNestedValue config "supabase.project_url")
    with (Setup.optional_get (Setup.optional_get config "supabase") "project_url").
  change (Setup.getNestedValue config "supabase.anon_key")
    with (Setup.optional_get (Setup.optional_get config "supabase") "anon_key").
  rewrite <- !SetupFacts.good_credential by done.
  repeat match goal with
         | |- context [Setup.missing_or_placeholder ?v] =>
             destruct (Setup.missing_or_placeholder v) as [?|[|]]
         end;
    cbn [fst snd]; (split; [split|]); try done; by intros (? & ? & ? & ?).
Qed.

(** X16. [validateConfig] throws, instead of returning, exactly when
    one of the four required values is present but is not a string (a
    number, [true], a list or a mapping): [value.startsWith] is then not
    a function. *)
Theorem validateConfig_throws (config : value) (errors : list string) (e : exn) :
  (Setup.validateConfig config errors).1 = inl e ↔
  e = TypeError "value.startsWith is not a function" ∧
  Exists (fun key => Setup.not_a_string (Setup.getNestedValue config key)) Setup.required.
Proof.
  unfold Setup.validateConfig, Setup.required. cbn [Setup.validate].
  rewrite !Exists_cons, Exists_nil.
  repeat match goal with
         | |- context [Setup.missing_or_placeholder ?v] =>
             let H := fresh "H" in
             destruct (Setup.missing_or_placeholder v) as [?|[|]] eqn:H;
             [apply SetupFacts.throws_spec in H as [-> ?]
             |apply SetupFacts.returns_string in H
             |apply SetupFacts.returns_string in H]
         end;
    cbn [fst]; (split; [intros [= <-]; tauto|intros [-> ?]; try done; tauto]).
Qed.

Example validateConfig_numeric_client_id :
  Setup.validateConfig
    (VObj [("google_oauth", VObj [("client_id", VNum 12345); ("client_secret", VStr "s")]);
           ("supabase", VObj [("project_url", VStr "u"); ("anon_key", VStr "k")])]) [] =
  (inl (TypeError "value.startsWith is not a function"), []).
Proof. reflexivity. Qed.

(** When loading failed, [this.config] is [null]: all four keys are
    reported and nothing throws. *)
Example validateConfig_null :
  Setup.validateConfig VNull [] =
  (inr false,
   [ "Missing or placeholder value for: google_oauth.client_id";
     "Missing or placeholder value for: google_oauth.client_secret";
     "Missing or placeholder value for: supabase.project_url";
     "Missing or placeholder value for: supabase.anon_key" ]).
Proof. reflexivity. Qed.

(** X17. Whenever [generateEnvFile] gets as far as writing [.env], the
    environment test [testEnvVars] passes on what it wrote, whatever the
    configuration holds: the test looks for the three names followed by
    [=], which the template always contains. *)
Theorem generated_env_passes_test (config : value) (written : string) :
  Setup.generateEnvFile config = Return written →
  Setup.testEnvVars written = Setup.Passes.
Proof.
  unfold Setup.generateEnvFile. intros H.
  repeat (apply SetupFacts.bind_return_inv in H as (? & _ & H)).
  injection H as <-. apply SetupFacts.envContent_passes.
Qed.

Lemma generated_env_passes_test_witness :
  Setup.generateEnvFile Setup.empty_sections =
    Return (Setup.envContent VUndefined VUndefined (VStr "/auth/google/callback")
              VUndefined VUndefined VUndefined VUndefined EmptyString) ∧
  Setup.testEnvVars
    (Setup.envContent VUndefined VUndefined (VStr "/auth/google/callback")
       VUndefined VUndefined VUndefined VUndefined EmptyString) = Setup.Passes.
Proof.
  split; [reflexivity|].
  apply (generated_env_passes_test Setup.empty_sections). reflexivity.
Defined.

(** ** The schema scripts on an existing database *)

Module MigrationFacts.
Import Ddl.

Lemma add_columns_plain (t : string) (s : gmap string Table)
    (cols : list (bool * Column)) (tb : Table) :
  forallb fst cols = true →
  Forall (fun c => references c.2 = None) cols →
  ∃ tb', add_columns t s cols tb = inr tb' ∧
         rows tb' = rows tb ∧ indexes tb' = indexes tb ∧
         columns tb `prefix_of` columns tb'.
Proof.
  revert tb. induction cols as [|[g c] cols IH]; intros tb Hg Hr.
  - by exists tb.
  - cbn in Hg. apply andb_true_iff in Hg as [-> Hg].
    apply Forall_cons in Hr as [Hc Hr]. cbn in Hc. cbn [add_columns].
    destruct (has_column (name c) (columns tb)); [by apply IH|].
    unfold fk_ok. rewrite Hc. cbn [negb].
    destruct (IH {| columns := columns tb ++ [c]; rows := rows tb; indexes := indexes tb |}
                Hg Hr) as (tb' & -> & ? & ? & Hp).
    exists tb'. repeat split; try done.
    etrans; [|exact Hp]. by apply prefix_app_r.
Qed.

End MigrationFacts.

(** X18. The column migration fails with an undefined table exactly
    when there is no users table. Otherwise it succeeds and changes the
    users table only: its records and indexes are kept, its columns are
    kept in place with new ones added after them, and all six columns
    that step 3 of the diagnostic selects are then present. *)
Theorem migration_adds_checked_columns (s : gmap string Ddl.Table) :
  match s !! "users" with
  | None =>
      Ddl.exec_batch Ddl.addOAuthTokenColumns s = Ddl.Failed (Ddl.UndefinedTable "users")
  | Some tb =>
      ∃ tb', Ddl.exec_batch Ddl.addOAuthTokenColumns s = Ddl.Ok (<["users" := tb']> s) ∧
             Ddl.rows tb' = Ddl.rows tb ∧ Ddl.indexes tb' = Ddl.indexes tb ∧
             Ddl.columns tb `prefix_of` Ddl.columns tb' ∧
             Forall (fun c => Ddl.has_column c (Ddl.columns tb') = true)
               Diagnose.checked_columns
  end.
Proof.
  unfold Ddl.addOAuthTokenColumns. cbn [Ddl.exec_batch Ddl.exec_stmt].
  destruct (s !! "users") as [tb|] eqn:Hu; [|done].
  match goal with
  | |- context [Ddl.add_columns "users" s ?cols tb] =>
      destruct (MigrationFacts.add_columns_plain "users" s cols tb)
        as (tb' & Hadd & Hrows & Hidx & Hpre);
      [done|by repeat constructor|];
      pose proof (DdlFacts.add_columns_present _ _ _ _ _ Hadd) as [_ Hall];
      rewrite Hadd
  end.
  exists tb'. repeat split; try done.
  unfold Diagnose.checked_columns.
  repeat (apply Forall_cons in Hall as [? Hall]).
  repeat constructor; done.
Qed.

(** X19. [createTables] never changes a users table that is already
    there: its columns, records and indexes stay as they were, also when
    it lacks columns of the table the script describes. *)
Theorem createTables_keeps_users (s : gmap string Ddl.Table) (tb : Ddl.Table) :
  s !! "users" = Some tb →
  Ddl.run_script Ddl.createTables s !! "users" = Some tb.
Proof.
  intros Hu. unfold Ddl.run_script.
  destruct (Ddl.exec_batch Ddl.createTables s) as [s'|e] eqn:Hrun; [|done].
  unfold Ddl.createTables in Hrun. cbn [Ddl.exec_batch] in Hrun.
  assert (Ddl.exec_stmt (Ddl.CreateTable true "users" Ddl.users_columns) s = Ddl.Ok s)
    as Hfirst.
  { cbn [Ddl.exec_stmt]. by rewrite (DdlFacts.name_taken_table "users" tb s). }
  rewrite Hfirst in Hrun.
  rewrite <- Hu.
  apply (DdlFacts.exec_batch_frame [Ddl.CreateTable true "sessions" Ddl.sessions_columns]);
    [done|]. by repeat constructor.
Qed.

Lemma createTables_keeps_users_witness :
  Ddl.run_script Ddl.createTables {["users" := old_users]} !! "users" = Some old_users.
Proof.
  apply (createTables_keeps_users {["users" := old_users]} old_users). reflexivity.
Defined.

(** X20. Whenever [setupTables] succeeds, the users table it leaves is
    the fresh one: no records, the eight columns of the script, the two
    indexes on [google_id] and [email], and none of the columns the
    migration adds. *)
Theorem setupTables_resets_users (s s' : gmap string Ddl.Table) :
  Ddl.exec_batch Ddl.setupTables s = Ddl.Ok s' →
  s' !! "users" =
    Some {| Ddl.columns := Ddl.users_columns; Ddl.rows := 0;
            Ddl.indexes := {["idx_users_email" := "email";
                             "idx_users_google_id" := "google_id"]} |} ∧
  Forall (fun c => Ddl.has_column c Ddl.users_columns = false) Diagnose.checked_columns.
Proof.
  intros H. split; [|by repeat constructor].
  unfold Ddl.setupTables in H. cbn [Ddl.exec_batch] in H.
  rewrite !DdlFacts.drop_if_exists in H.
  set (s0 := delete "users" (delete "sessions" s)) in H.
  cbn [Ddl.exec_stmt] in H.
  destruct (Ddl.name_taken "users" s0); [done|].
  change (negb (Ddl.distinct (Ddl.name <$> Ddl.users_columns))) with false in H.
  change (Ddl.first_bad_fk "users" Ddl.users_columns s0 Ddl.users_columns)
    with (@None string) in H.
  cbn iota in H.
  destruct (Ddl.name_taken "sessions" _); [done|].
  change (negb (Ddl.distinct (Ddl.name <$> Ddl.sessions_columns))) with false in H.
  cbn iota in H.
  destruct (Ddl.first_bad_fk "sessions" _ _ _); [done|]. cbn iota in H.
  destruct (Ddl.name_taken "idx_users_google_id" _); [done|].
  rewrite lookup_insert_ne, lookup_insert_eq in H by done.
  cbn [Ddl.columns Ddl.rows Ddl.indexes] in H.
  change (Ddl.has_column "google_id" Ddl.users_columns) with true in H. cbn iota in H.
  destruct (Ddl.name_taken "idx_users_email" _); [done|].
  rewrite lookup_insert_eq in H.
  cbn [Ddl.columns Ddl.rows Ddl.indexes] in H.
  change (Ddl.has_column "email" Ddl.users_columns) with true in H. cbn iota in H.
  destruct (Ddl.name_taken "idx_sessions_user_id" _); [done|].
  rewrite !(lookup_insert_ne _ "users" "sessions"), lookup_insert_eq in H by done.
  cbn [Ddl.columns Ddl.rows Ddl.indexes] in H.
  change (Ddl.has_column "user_id" Ddl.sessions_columns) with true in H. cbn iota in H.
  injection H as <-.
  rewrite lookup_insert_ne, lookup_insert_eq by done.
  by rewrite insert_empty.
Qed.

Lemma setupTables_resets_users_witness :
  Ddl.run_script Ddl.setupTables {["users" := old_users]} !! "users" =
    Some {| Ddl.columns := Ddl.users_columns; Ddl.rows := 0;
            Ddl.indexes := {["idx_users_email" := "email";
                             "idx_users_google_id" := "google_id"]} |} ∧
  Forall (fun c => Ddl.has_column c Ddl.users_columns = false) Diagnose.checked_columns.
Proof.
  apply (setupTables_resets_users {["users" := old_users]}).
  vm_compute. reflexivity.
Defined.
